(** * ptu-ri-alert: the Event Grid handler and the PTU capacity checker

    A shallow embedding of [function-app/function_app.py].  The two Python
    functions [ptu_ri_alert_function] and [check_ptu_capacity] are written in
    a small monad that threads the local variables of the running function,
    collects the lines handed to [logging], and propagates Python exceptions.
    The Azure SDK objects the code talks to are gathered in a record [Env]:
    every constructor and every list call may raise, and every lazy sequence
    may raise after it has produced some of its items. *)

From Stdlib Require Import ZArith List String Ascii Bool Lia.
Import ListNotations.
Open Scope string_scope.
Open Scope Z_scope.
Set Warnings "-register-all".

(** ** Python strings *)

(** A string is kept as the sequence of its bytes.  [lower] changes the
    letters A-Z only; Python's [str.lower] also changes characters outside
    ASCII, but none of them into a byte of 'provisioned' at the place where
    the prefix test of the checker would need it, so the test has the same
    outcome. *)

Module PyStr.

(** [c.lower()] on one character of the ASCII range. *)
Definition lower_ascii (c : ascii) : ascii :=
  let n := nat_of_ascii c in
  if (Nat.leb 65 n && Nat.leb n 90)%bool then ascii_of_nat (n + 32) else c.

(** [s.lower()] *)
Fixpoint lower (s : string) : string :=
  match s with
  | EmptyString => EmptyString
  | String c r => String (lower_ascii c) (lower r)
  end.

(** [s.startswith(p)] *)
Fixpoint startswith (s p : string) : bool :=
  match p, s with
  | EmptyString, _ => true
  | String _ _, EmptyString => false
  | String a p', String b s' => (Ascii.eqb a b && startswith s' p')%bool
  end.

(** [needle in hay] on two strings: substring search. *)
Fixpoint contains (needle hay : string) : bool :=
  match hay with
  | EmptyString => startswith hay needle
  | String _ r => (startswith hay needle || contains needle r)%bool
  end.

(** [s.split(sep)] for a separator of one character; the result is never
    empty, and the empty string splits into one empty segment. *)
Fixpoint split (sep : ascii) (s : string) : list string :=
  match s with
  | EmptyString => [EmptyString]
  | String c r =>
      if Ascii.eqb c sep then EmptyString :: split sep r
      else match split sep r with
           | [] => [String c EmptyString]
           | hd :: tl => String c hd :: tl
           end
  end.

(** Truth value of an attribute that holds a string or [None]. *)
Definition truthy (o : option string) : bool :=
  match o with
  | None => false
  | Some EmptyString => false
  | Some (String _ _) => true
  end.

End PyStr.

(** ** Python values the code handles *)

(** The exceptions that the code can meet.  All of them derive from
    [Exception]; [SdkError] stands for whatever an Azure client raises. *)
Inductive exn : Type :=
| IndexError
| TypeError
| AttributeError
| SdkError (detail : string).

Inductive result (A : Type) : Type :=
| Return (a : A)
| Raise (e : exn).
Arguments Return {A} a.
Arguments Raise {A} e.

(** A value found in the event's JSON payload. *)
Inductive json : Type :=
| JNull
| JBool (b : bool)
| JNum (n : Z)
| JStr (s : string)
| JArr (items : list json)
| JObj (fields : list (string * json)).

(** [x or 0] for an integer attribute that may be [None]. *)
Definition or_zero (o : option Z) : Z :=
  match o with
  | None => 0
  | Some n => if n =? 0 then 0 else n
  end.

(** [a or b] for two string attributes that may be [None]. *)
Definition or_else (a b : option string) : option string :=
  if PyStr.truthy a then a else b.

(** [d.get(key, default)] on a payload object, kept as its list of fields
    (a key occurs once in a dictionary). *)
Fixpoint dict_get (d : list (string * json)) (key : string) (default : json) : json :=
  match d with
  | [] => default
  | (k, v) :: r => if String.eqb k key then v else dict_get r key default
  end.

(** [needle in v] for a string [needle]: substring of a string, element of a
    list, key of an object; any other value is not a container. *)
Definition py_in (needle : string) (v : json) : result bool :=
  match v with
  | JStr s => Return (PyStr.contains needle s)
  | JArr items =>
      Return (existsb (fun x => match x with
                                | JStr s => String.eqb needle s
                                | _ => false
                                end) items)
  | JObj fields => Return (existsb (fun kv => String.eqb needle (fst kv)) fields)
  | JNull | JBool _ | JNum _ => Raise TypeError
  end.

(** [l[i]] for an index that is not negative. *)
Definition index {A : Type} (l : list A) (i : nat) : result A :=
  match nth_error l i with
  | Some x => Return x
  | None => Raise IndexError
  end.

(** ** Records of the Azure SDK *)

Record Sku : Type := {
  sku_name : option string;
  sku_capacity : option Z
}.

Record Deployment : Type := {
  dep_name : option string;
  dep_sku : option Sku
}.

Record ReservationOrder : Type := {
  order_name : option string
}.

(** What a reservation is about.  The SDK keeps these fields in a separate
    object, which a reservation holds under [properties]. *)
Record ReservationsProperties : Type := {
  prop_display_name : option string;
  prop_sku_description : option string;
  prop_quantity : option Z;
  prop_provisioning_state : option string
}.

(** A [ReservationResponse], as the reservation client yields it: of the
    attributes the code is after it has [name] and nothing else, the others
    being attributes of [properties]. *)
Record Reservation : Type := {
  res_name : option string;
  properties : option ReservationsProperties
}.

(** The description and the quantity that the properties of a reservation
    give. *)
Definition sku_description (r : Reservation) : option string :=
  match properties r with
  | Some p => prop_sku_description p
  | None => None
  end.

Definition quantity (r : Reservation) : option Z :=
  match properties r with
  | Some p => prop_quantity p
  | None => None
  end.

(** Reading on a reservation an attribute that [ReservationResponse] does
    not have: [reservation.sku_description], [reservation.quantity],
    [reservation.display_name] and [reservation.provisioning_state] all
    raise, whatever the reservation and whatever [properties] holds. *)
Definition undeclared {A : Type} (attribute : string) (reservation : Reservation)
  : result A :=
  Raise AttributeError.

(** A lazy sequence as the SDK pagers produce them: the items it yields, and
    the exception that ends the iteration when it does not end normally. *)
Record pager (A : Type) : Type := {
  yields : list A;
  breaks : option exn
}.
Arguments yields {A} p.
Arguments breaks {A} p.

(** The collaborators of the checker. *)
Record Env : Type := {
  (** [DefaultAzureCredential()] *)
  DefaultAzureCredential : result unit;
  (** [CognitiveServicesManagementClient(credential, subscription_id)] *)
  CognitiveServicesManagementClient : string -> result unit;
  (** [cog_client.deployments.list(resource_group, account_name)], for the
      client of a subscription *)
  deployments_list : string -> string -> string -> result (pager Deployment);
  (** [AzureReservationAPI(credential)] *)
  AzureReservationAPI : result unit;
  (** [reservation_client.reservation_order.list()] *)
  reservation_order_list : result (pager ReservationOrder);
  (** [reservation_client.reservation.list(order.name)] *)
  reservation_list : option string -> result (pager Reservation)
}.

(** The event handed to the function by the Event Grid trigger. *)
Record EventGridEvent : Type := {
  id : string;
  event_type : string;
  subject : string;
  event_time : string;
  get_json : list (string * json)
}.

(** The dictionary the handler returns. *)
Record response : Type := {
  status : string;
  event_id : string;
  r_event_type : string
}.

(** ** The logging side channel *)

Inductive level : Type := INFO | WARNING | ERROR.

(** One constructor for each call of [logging] in the file, with the values
    its format string interpolates. *)
Inductive msg : Type :=
(* ptu_ri_alert_function *)
| Banner
| TriggerActivated
| EventId (v : string)
| EventType (v : string)
| EventSubject (v : string)
| EventTime (v : string)
| Operation (v : json)
| Status (v : json)
| DeploymentDetected
| Resource (v : string)
| Subscription (v : string)
| ResourceGroup (v : string)
| Account (v : string)
| DeploymentName (v : string)
| ErrorProcessing (e : exn)
| Traceback (e : exn)
| NonDeploymentSkip
| ProcessingComplete
(* check_ptu_capacity *)
| CapacityCheck
| ScanningDeployments (account : string)
| NewDeployment (name : string) (capacity : Z)
| TotalDeployed (n : Z)
| DeploymentBreakdown
| DeploymentDetail (name : option string) (capacity : Z) (sku : option string)
| CheckingReservations
| CouldNotQuery (e : exn)
| ReservationDelayNote
| TotalReserved (n : Z)
| ReservationBreakdown
| ReservationDetail (name : option string) (qty : Z) (state : option string)
| ReportHeader
| NoReservationsFound
| AllBilledHourly (deployed : Z)
| ConsiderPurchasing
| FullyCovered
| Deployed (n : Z)
| Reserved (n : Z)
| Available (n : Z)
| NewDeploymentCovered (name : string) (capacity : Z)
| ExceedsReservations
| Excess (n : Z)
| NewDeploymentBilled (name : string) (capacity : Z)
| ConsiderAdditional (n : Z)
| ErrorChecking (e : exn).

Definition entry : Type := (level * msg)%type.

(** ** The monad of a running Python function *)

Section Monad.

(** [S] is the type of the local variables of the running function. *)
Context {S : Type}.

Record run (A : Type) : Type := Run {
  value : result A;
  frame : S;
  emitted : list entry
}.
Arguments Run {A} value frame emitted.
Arguments value {A} r.
Arguments frame {A} r.
Arguments emitted {A} r.

Definition M (A : Type) : Type := S -> run A.

Definition ret {A} (a : A) : M A := fun s => Run (Return a) s [].

Definition raise {A} (e : exn) : M A := fun s => Run (Raise e) s [].

Definition bind {A B} (m : M A) (k : A -> M B) : M B :=
  fun s =>
    match m s with
    | Run (Return a) s1 l1 =>
        match k a s1 with
        | Run v s2 l2 => Run v s2 (l1 ++ l2)
        end
    | Run (Raise e) s1 l1 => Run (Raise e) s1 l1
    end.

(** A call that returns or raises without touching the local variables. *)
Definition lift {A} (x : result A) : M A :=
  match x with
  | Return a => ret a
  | Raise e => raise e
  end.

Definition logging (l : level) (t : msg) : M unit :=
  fun s => Run (Return tt) s [(l, t)].

(** [logging.exception(e)]: an ERROR line followed by the traceback, kept
    here as one entry. *)
Definition logging_exception (e : exn) : M unit := logging ERROR (Traceback e).

(** [try: body except Exception as e: handler(e)].  The local variables
    and the lines logged before the exception stay as the body left
    them. *)
Definition try_except (body : M unit) (handler : exn -> M unit) : M unit :=
  fun s =>
    match body s with
    | Run (Return u) s1 l1 => Run (Return u) s1 l1
    | Run (Raise e) s1 l1 =>
        match handler e s1 with
        | Run v s2 l2 => Run v s2 (l1 ++ l2)
        end
    end.

(** [for x in items: body(x)] over items already at hand. *)
Fixpoint for_each {A} (items : list A) (body : A -> M unit) : M unit :=
  match items with
  | [] => ret tt
  | x :: r => bind (body x) (fun _ => for_each r body)
  end.

(** [for x in p: body(x)] over a lazy sequence: the body runs on each item
    the sequence yields, then the sequence ends or raises. *)
Definition for_in {A} (p : pager A) (body : A -> M unit) : M unit :=
  bind (for_each (yields p) body)
       (fun _ => match breaks p with
                 | None => ret tt
                 | Some e => raise e
                 end).

(** [if c: body] *)
Definition when (c : bool) (body : M unit) : M unit :=
  if c then body else ret tt.

End Monad.

Arguments run : clear implicits.
Arguments M : clear implicits.
Arguments Run {S A} value frame emitted.
Arguments value {S A} r.
Arguments frame {S A} r.
Arguments emitted {S A} r.

(** A call of a function with local variables of its own, starting from
    [init]: the caller sees the result and the logged lines. *)
Definition call {S T A} (init : T) (f : M T A) : M S A :=
  fun s =>
    match f init with
    | Run v _ l => Run v s l
    end.

Declare Scope py_scope.
Delimit Scope py_scope with py.
Notation "x <- m ;; k" := (bind m (fun x => k))
  (at level 61, m at next level, right associativity) : py_scope.
Notation "m ;; k" := (bind m (fun _ => k))
  (at level 61, right associativity) : py_scope.
Open Scope py_scope.

(** ** check_ptu_capacity *)

(** The variables assigned in the body of [check_ptu_capacity].  A variable
    that Python has not bound yet is never read; it is shown with the value
    of [unbound]. *)
Record locals : Type := {
  total_deployed_ptus : Z;
  new_deployment_ptus : Z;
  deployment_details : list msg;
  total_reserved_ptus : Z;
  reservation_details : list msg
}.

Definition unbound : locals :=
  {| total_deployed_ptus := 0; new_deployment_ptus := 0; deployment_details := [];
     total_reserved_ptus := 0; reservation_details := [] |}.

Definition set_total_deployed (n : Z) (v : locals) : locals :=
  {| total_deployed_ptus := n;
     new_deployment_ptus := new_deployment_ptus v;
     deployment_details := deployment_details v;
     total_reserved_ptus := total_reserved_ptus v;
     reservation_details := reservation_details v |}.

Definition set_new_deployment (n : Z) (v : locals) : locals :=
  {| total_deployed_ptus := total_deployed_ptus v;
     new_deployment_ptus := n;
     deployment_details := deployment_details v;
     total_reserved_ptus := total_reserved_ptus v;
     reservation_details := reservation_details v |}.

Definition set_deployment_details (d : list msg) (v : locals) : locals :=
  {| total_deployed_ptus := total_deployed_ptus v;
     new_deployment_ptus := new_deployment_ptus v;
     deployment_details := d;
     total_reserved_ptus := total_reserved_ptus v;
     reservation_details := reservation_details v |}.

Definition set_total_reserved (n : Z) (v : locals) : locals :=
  {| total_deployed_ptus := total_deployed_ptus v;
     new_deployment_ptus := new_deployment_ptus v;
     deployment_details := deployment_details v;
     total_reserved_ptus := n;
     reservation_details := reservation_details v |}.

Definition set_reservation_details (d : list msg) (v : locals) : locals :=
  {| total_deployed_ptus := total_deployed_ptus v;
     new_deployment_ptus := new_deployment_ptus v;
     deployment_details := deployment_details v;
     total_reserved_ptus := total_reserved_ptus v;
     reservation_details := d |}.

(** The frame of a running [check_ptu_capacity]: the current value of its
    variables and, newest first, the value they had after each assignment
    ([trail] is only there to state what holds at every point of a run). *)
Record cframe : Type := {
  vars : locals;
  trail : list locals
}.

Definition fresh : cframe := {| vars := unbound; trail := [unbound] |}.

Definition assign (f : locals -> locals) : M cframe unit :=
  fun s => Run (Return tt) {| vars := f (vars s); trail := f (vars s) :: trail s |} [].

Definition read {A} (f : locals -> A) : M cframe A :=
  fun s => Run (Return (f (vars s))) s [].

(** [dep.name == deployment_name] *)
Definition name_is (n : option string) (deployment_name : string) : bool :=
  match n with
  | Some s => String.eqb s deployment_name
  | None => false
  end.

(** The body of the loop over the deployments (lines 95-102). *)
Definition deployment_body (deployment_name : string) (dep : Deployment) : M cframe unit :=
  match dep_sku dep with
  | None => ret tt
  | Some sku =>
      when (PyStr.truthy (sku_name sku)
            && match sku_name sku with
               | Some n => PyStr.startswith (PyStr.lower n) "provisioned"
               | None => false
               end)
        (let capacity := or_zero (sku_capacity sku) in
         total <- read total_deployed_ptus ;;
         assign (set_total_deployed (total + capacity)) ;;
         details <- read deployment_details ;;
         assign (set_deployment_details
                   (details ++ [DeploymentDetail (dep_name dep) capacity (sku_name sku)])) ;;
         when (name_is (dep_name dep) deployment_name)
           (assign (set_new_deployment capacity) ;;
            logging WARNING (NewDeployment deployment_name capacity)))
  end.

(** The body of the inner loop over the reservations (lines 122-125).  The
    condition reads [reservation.sku_description] for its truth value and,
    if that holds, once more for the membership test. *)
Definition reservation_body (reservation : Reservation) : M cframe unit :=
  description <- lift (undeclared "sku_description" reservation) ;;
  is_ptu <- (if PyStr.truthy description
             then again <- lift (undeclared "sku_description" reservation) ;;
                  match again with
                  | Some d => ret (PyStr.contains "Provisioned Throughput" d)
                  | None => raise TypeError
                  end
             else ret false) ;;
  when is_ptu
    (q <- lift (undeclared "quantity" reservation) ;;
     let qty := or_zero q in
     total <- read total_reserved_ptus ;;
     assign (set_total_reserved (total + qty)) ;;
     shown <- lift (undeclared "display_name" reservation) ;;
     state <- lift (undeclared "provisioning_state" reservation) ;;
     details <- read reservation_details ;;
     assign (set_reservation_details
               (details ++ [ReservationDetail (or_else shown (res_name reservation))
                              qty state]))).

(** [if details: logging.info(title); for detail in details: logging.info(detail)] *)
Definition log_breakdown {S} (title : msg) (details : list msg) : M S unit :=
  when (negb (Nat.eqb (List.length details) 0))
    (logging INFO title ;;
     for_each details (fun detail => logging INFO detail)).

(** Step 1 (lines 86-108). *)
Definition scan_deployments (env : Env)
    (subscription_id resource_group account_name deployment_name : string) : M cframe unit :=
  logging INFO (ScanningDeployments account_name) ;;
  lift (CognitiveServicesManagementClient env subscription_id) ;;
  assign (set_total_deployed 0) ;;
  assign (set_new_deployment 0) ;;
  assign (set_deployment_details []) ;;
  deployments <- lift (deployments_list env subscription_id resource_group account_name) ;;
  for_in deployments (deployment_body deployment_name) ;;
  total <- read total_deployed_ptus ;;
  logging INFO (TotalDeployed total) ;;
  details <- read deployment_details ;;
  log_breakdown DeploymentBreakdown details.

(** The statements inside the inner [try] (lines 116-125). *)
Definition enumerate_reservations (env : Env) : M cframe unit :=
  lift (AzureReservationAPI env) ;;
  orders <- lift (reservation_order_list env) ;;
  for_in orders
    (fun order =>
       reservations <- lift (reservation_list env (order_name order)) ;;
       for_in reservations reservation_body).

(** Step 2 (lines 111-135). *)
Definition scan_reservations (env : Env) : M cframe unit :=
  logging INFO CheckingReservations ;;
  assign (set_total_reserved 0) ;;
  assign (set_reservation_details []) ;;
  try_except (enumerate_reservations env)
    (fun e =>
       logging WARNING (CouldNotQuery e) ;;
       logging WARNING ReservationDelayNote) ;;
  total <- read total_reserved_ptus ;;
  logging INFO (TotalReserved total) ;;
  details <- read reservation_details ;;
  log_breakdown ReservationBreakdown details.

(** Step 3 (lines 138-163). *)
Definition compare_and_report (deployment_name : string) : M cframe unit :=
  logging INFO Banner ;;
  logging INFO ReportHeader ;;
  logging INFO Banner ;;
  total_deployed <- read total_deployed_ptus ;;
  total_reserved <- read total_reserved_ptus ;;
  new_deployment <- read new_deployment_ptus ;;
  (if total_reserved =? 0 then
     logging WARNING NoReservationsFound ;;
     logging WARNING (AllBilledHourly total_deployed) ;;
     logging WARNING ConsiderPurchasing
   else if total_deployed <=? total_reserved then
     let available := total_reserved - total_deployed in
     logging INFO FullyCovered ;;
     logging INFO (Deployed total_deployed) ;;
     logging INFO (Reserved total_reserved) ;;
     logging INFO (Available available) ;;
     logging INFO (NewDeploymentCovered deployment_name new_deployment)
   else
     let excess := total_deployed - total_reserved in
     logging ERROR ExceedsReservations ;;
     logging ERROR (Deployed total_deployed) ;;
     logging ERROR (Reserved total_reserved) ;;
     logging ERROR (Excess excess) ;;
     when (0 <? new_deployment)
       (logging ERROR (NewDeploymentBilled deployment_name new_deployment)) ;;
     logging ERROR (ConsiderAdditional excess)) ;;
  logging INFO Banner.

(** The statements inside the outer [try] (lines 83-163). *)
Definition capacity_steps (env : Env)
    (subscription_id resource_group account_name deployment_name : string) : M cframe unit :=
  lift (DefaultAzureCredential env) ;;
  scan_deployments env subscription_id resource_group account_name deployment_name ;;
  scan_reservations env ;;
  compare_and_report deployment_name.

Definition check_ptu_capacity (env : Env)
    (subscription_id resource_group account_name deployment_name : string) : M cframe unit :=
  logging INFO Banner ;;
  logging INFO CapacityCheck ;;
  logging INFO Banner ;;
  try_except
    (capacity_steps env subscription_id resource_group account_name deployment_name)
    (fun e =>
       logging ERROR (ErrorChecking e) ;;
       logging_exception e).

(** ** ptu_ri_alert_function *)

(** The condition of line 37; [and] evaluates its right operand only when the
    left one holds. *)
Definition is_deployment_event (subject : string) (operation_name : json) : result bool :=
  if PyStr.contains "Microsoft.CognitiveServices/accounts" subject
  then py_in "deployments/write" operation_name
  else Return false.

(** Lines 43-47: subscription id, resource group, account name and
    deployment name, read off the split subject. *)
Definition parse_subject {S} (subject : string)
  : M S (string * string * string * string) :=
  let parts := PyStr.split "/" subject in
  subscription_id <- lift (index parts 2) ;;
  resource_group <- lift (index parts 4) ;;
  account_name <- lift (index parts 8) ;;
  deployment_name <- (if (10 <? List.length parts)%nat
                      then lift (index parts 10)
                      else ret "unknown") ;;
  ret (subscription_id, resource_group, account_name, deployment_name).

(** The statements inside the [try] of the handler (lines 43-55). *)
Definition process_deployment_event (env : Env) (event : EventGridEvent) : M unit unit :=
  parsed <- parse_subject (subject event) ;;
  let '(subscription_id, resource_group, account_name, deployment_name) := parsed in
  logging INFO (Subscription subscription_id) ;;
  logging INFO (ResourceGroup resource_group) ;;
  logging INFO (Account account_name) ;;
  logging INFO (DeploymentName deployment_name) ;;
  call fresh
    (check_ptu_capacity env subscription_id resource_group account_name deployment_name).

Definition ptu_ri_alert_function (env : Env) (event : EventGridEvent) : M unit response :=
  logging INFO Banner ;;
  logging INFO TriggerActivated ;;
  logging INFO Banner ;;
  let event_data := get_json event in
  logging INFO (EventId (id event)) ;;
  logging INFO (EventType (event_type event)) ;;
  logging INFO (EventSubject (subject event)) ;;
  logging INFO (EventTime (event_time event)) ;;
  let operation_name := dict_get event_data "operationName" (JStr "N/A") in
  let status := dict_get event_data "status" (JStr "N/A") in
  logging INFO (Operation operation_name) ;;
  logging INFO (Status status) ;;
  deployment_event <- lift (is_deployment_event (subject event) operation_name) ;;
  (if deployment_event then
     logging WARNING DeploymentDetected ;;
     logging WARNING (Resource (subject event)) ;;
     try_except (process_deployment_event env event)
       (fun e =>
          logging ERROR (ErrorProcessing e) ;;
          logging_exception e)
   else
     logging INFO NonDeploymentSkip) ;;
  logging INFO Banner ;;
  logging INFO ProcessingComplete ;;
  logging INFO Banner ;;
  ret {| status := "success"; event_id := id event; r_event_type := event_type event |}.

(** * Vocabulary of the properties *)

(** A computation that never raises. *)
Definition returns {S} (m : M S unit) : Prop := forall s, value (m s) = Return tt.

(** The three lines every run of [check_ptu_capacity] starts with. *)
Definition banner3 : list entry := [(INFO, Banner); (INFO, CapacityCheck); (INFO, Banner)].

(** What a frame must satisfy for the totals to be called non-negative. *)
Definition nonneg (v : locals) : Prop :=
  0 <= total_deployed_ptus v /\ 0 <= total_reserved_ptus v /\ 0 <= new_deployment_ptus v.

(** The variables are non-negative now and were so after every assignment. *)
Definition always_nonneg (s : cframe) : Prop :=
  nonneg (vars s) /\ Forall nonneg (trail s).

(** A computation that keeps a property of the frame, however it ends. *)
Definition keeps {A} (I : cframe -> Prop) (m : M cframe A) : Prop :=
  forall s, I s -> I (frame (m s)).

(** An integer attribute that is missing or not negative. *)
Definition absent_or_nonneg (o : option Z) : Prop :=
  match o with
  | None => True
  | Some n => 0 <= n
  end.

Definition deployment_fields_nonneg (dep : Deployment) : Prop :=
  match dep_sku dep with
  | None => True
  | Some sku => absent_or_nonneg (sku_capacity sku)
  end.

(** Every record the collaborators can hand out has capacity and quantity
    fields that are missing or not negative. *)
Definition fields_nonneg (env : Env) : Prop :=
  (forall s g a p, deployments_list env s g a = Return p ->
                   Forall deployment_fields_nonneg (yields p)) /\
  (forall o p, reservation_list env o = Return p ->
               Forall (fun r => absent_or_nonneg (quantity r)) (yields p)).

(** ** The totals as the specification words them *)

Definition sum_of (l : list Z) : Z := fold_right Z.add 0 l.

(** Two characters that differ at most by their case. *)
Definition same_letter (a b : ascii) : bool :=
  Ascii.eqb (PyStr.lower_ascii a) (PyStr.lower_ascii b).

(** [s] begins with [p], compared case-insensitively. *)
Fixpoint begins_with_ci (s p : string) : bool :=
  match p, s with
  | EmptyString, _ => true
  | String _ _, EmptyString => false
  | String a p', String b s' => (same_letter a b && begins_with_ci s' p')%bool
  end.

(** A deployment whose sku name begins with the prefix 'provisioned'; a
    missing sku or sku name does not. *)
Definition provisioned_sku (dep : Deployment) : bool :=
  match dep_sku dep with
  | Some sku =>
      match sku_name sku with
      | Some n => begins_with_ci n "provisioned"
      | None => false
      end
  | None => false
  end.

(** The capacity field of a deployment, a missing one counted as 0. *)
Definition capacity_of (dep : Deployment) : Z :=
  match dep_sku dep with
  | Some sku => match sku_capacity sku with Some c => c | None => 0 end
  | None => 0
  end.

Definition spec_total_deployed (deployments : list Deployment) : Z :=
  sum_of (map capacity_of (filter provisioned_sku deployments)).

(** A reservation whose sku-description contains the marker string; a missing
    description does not. *)
Definition ptu_reservation (r : Reservation) : bool :=
  match sku_description r with
  | Some d => PyStr.contains "Provisioned Throughput" d
  | None => false
  end.

(** The quantity field of a reservation, a missing one counted as 0. *)
Definition quantity_of (r : Reservation) : Z :=
  match quantity r with Some q => q | None => 0 end.

Definition spec_total_reserved (reservations : list Reservation) : Z :=
  sum_of (map quantity_of (filter ptu_reservation reservations)).

(** The capacity of the last enumerated deployment that has a provisioned
    sku and the target name, and 0 when there is none. *)
Definition last_named (deployment_name : string) (deployments : list Deployment) : Z :=
  last (map capacity_of
          (filter (fun dep => provisioned_sku dep && name_is (dep_name dep) deployment_name)
                  deployments))
       0.

(** ** How the reservation enumeration ends *)

(** The exception that ends the loop over the given orders, if any: the
    one the listing of an order raises, the attribute error of the first
    reservation that reaches the loop body, or the one a listing raises
    after it yielded nothing. *)
Fixpoint failure_from (env : Env) (orders : list ReservationOrder) : option exn :=
  match orders with
  | [] => None
  | order :: rest =>
      match reservation_list env (order_name order) with
      | Raise e => Some e
      | Return p =>
          match yields p with
          | _ :: _ => Some AttributeError
          | [] =>
              match breaks p with
              | Some e => Some e
              | None => failure_from env rest
              end
          end
      end
  end.

(** The same for the whole enumeration: the client, the list of orders, and
    the reservations of each order. *)
Definition enumeration_failure (env : Env) : option exn :=
  match AzureReservationAPI env with
  | Raise e => Some e
  | Return _ =>
      match reservation_order_list env with
      | Raise e => Some e
      | Return p =>
          match failure_from env (yields p) with
          | Some e => Some e
          | None => breaks p
          end
      end
  end.

(** ** Vocabulary for the handler *)

(** The operation name the handler reads from the payload (line 30). *)
Definition operation_name_of (event : EventGridEvent) : json :=
  dict_get (get_json event) "operationName" (JStr "N/A").

(** The dictionary of lines 67-71. *)
Definition success (event : EventGridEvent) : response :=
  {| status := "success"; event_id := id event; r_event_type := event_type event |}.

(** The lines logged before the filter (lines 16-34). *)
Definition opening_lines (event : EventGridEvent) : list entry :=
  [(INFO, Banner); (INFO, TriggerActivated); (INFO, Banner);
   (INFO, EventId (id event)); (INFO, EventType (event_type event));
   (INFO, EventSubject (subject event)); (INFO, EventTime (event_time event));
   (INFO, Operation (operation_name_of event));
   (INFO, Status (dict_get (get_json event) "status" (JStr "N/A")))].

(** The lines logged before returning (lines 63-65). *)
Definition closing_lines : list entry :=
  [(INFO, Banner); (INFO, ProcessingComplete); (INFO, Banner)].

(** The [try] statement of the handler (lines 41-59). *)
Definition guarded_processing (env : Env) (event : EventGridEvent) : M unit unit :=
  try_except (process_deployment_event env event)
    (fun e =>
       logging ERROR (ErrorProcessing e) ;;
       logging_exception e).

(** The lines that name the outcome of the comparison. *)
Definition is_outcome (e : entry) : bool :=
  match snd e with
  | NoReservationsFound | FullyCovered | ExceedsReservations => true
  | _ => false
  end.

(** ** Sample inputs *)

Definition deployment (name sku : string) (capacity : option Z) : Deployment :=
  {| dep_name := Some name;
     dep_sku := Some {| sku_name := Some sku; sku_capacity := capacity |} |}.

Definition reservation (description : option string) (qty : option Z) : Reservation :=
  {| res_name := Some "reservation-1";
     properties := Some {| prop_display_name := Some "ptu-reservation";
                           prop_sku_description := description;
                           prop_quantity := qty;
                           prop_provisioning_state := Some "Succeeded" |} |}.

(** Three deployments of 10, 20 and 5 units whose sku name begins with
    'provisioned' in some case, one whose sku name only contains the word,
    one with a standard sku and one without a sku. *)
Definition sample_deployments : list Deployment :=
  [deployment "embeddings" "ProvisionedManaged" (Some 10);
   deployment "gpt4" "GlobalProvisionedManaged" (Some 7);
   deployment "gpt4" "ProvisionedManaged" (Some 20);
   deployment "batch" "provisioned-managed" (Some 5);
   deployment "chat" "Standard" (Some 50);
   {| dep_name := Some "draft"; dep_sku := None |}].

Definition sample_reservations : list Reservation :=
  [reservation (Some "Azure OpenAI Provisioned Throughput") (Some 100);
   reservation (Some "Virtual Machines Dv3") None].

Definition first_order : ReservationOrder := {| order_name := Some "order-1" |}.

(** Every collaborator answers. *)
Definition sample_env : Env :=
  {| DefaultAzureCredential := Return tt;
     CognitiveServicesManagementClient := fun _ => Return tt;
     deployments_list := fun _ _ _ =>
       Return {| yields := sample_deployments; breaks := None |};
     AzureReservationAPI := Return tt;
     reservation_order_list := Return {| yields := [first_order]; breaks := None |};
     reservation_list := fun _ =>
       Return {| yields := sample_reservations; breaks := None |} |}.

(** No credential can be obtained. *)
Definition locked_env : Env :=
  {| DefaultAzureCredential := Raise (SdkError "no credential");
     CognitiveServicesManagementClient := fun _ => Return tt;
     deployments_list := fun _ _ _ => Return {| yields := []; breaks := None |};
     AzureReservationAPI := Return tt;
     reservation_order_list := Return {| yields := []; breaks := None |};
     reservation_list := fun _ => Return {| yields := []; breaks := None |} |}.

(** The only deployment has the target name and a standard sku. *)
Definition standard_env : Env :=
  {| DefaultAzureCredential := Return tt;
     CognitiveServicesManagementClient := fun _ => Return tt;
     deployments_list := fun _ _ _ =>
       Return {| yields := [deployment "gpt4" "Standard" (Some 10)]; breaks := None |};
     AzureReservationAPI := Return tt;
     reservation_order_list := Return {| yields := []; breaks := None |};
     reservation_list := fun _ => Return {| yields := []; breaks := None |} |}.

Definition event_on (subject operation : string) : EventGridEvent :=
  {| id := "evt-1"; event_type := "Microsoft.Resources.ResourceWriteSuccess";
     subject := subject; event_time := "2025-01-01T00:00:00Z";
     get_json := [("operationName", JStr operation); ("status", JStr "Succeeded")] |}.

(** A deployment write as Azure reports it: eleven segments. *)
Definition deployment_event : EventGridEvent :=
  event_on
    "/subscriptions/sub1/resourceGroups/rg1/providers/Microsoft.CognitiveServices/accounts/acct1/deployments/gpt4"
    "Microsoft.CognitiveServices/accounts/deployments/write".

(** The subject stops at the account: nine segments. *)
Definition account_event : EventGridEvent :=
  event_on
    "/subscriptions/sub1/resourceGroups/rg1/providers/Microsoft.CognitiveServices/accounts/acct1"
    "deployments/write".

(** The subject is the resource-type marker alone: two segments. *)
Definition bare_event : EventGridEvent :=
  event_on "Microsoft.CognitiveServices/accounts" "deployments/write".

(** A frame with the given totals. *)
Definition frame_with (deployed reserved new_deployment : Z) : cframe :=
  let v := {| total_deployed_ptus := deployed; new_deployment_ptus := new_deployment;
              deployment_details := []; total_reserved_ptus := reserved;
              reservation_details := [] |} in
  {| vars := v; trail := [v] |}.

(** * Vocabulary of the further properties *)

(** How many times a character occurs in a string. *)
Fixpoint occurrences (c : ascii) (s : string) : nat :=
  match s with
  | EmptyString => O
  | String a r => if Ascii.eqb a c then S (occurrences c r) else occurrences c r
  end.

(** The breakdown line of a deployment (line 98), a missing capacity shown
    as 0. *)
Definition detail_of (dep : Deployment) : msg :=
  DeploymentDetail (dep_name dep) (capacity_of dep)
    (match dep_sku dep with
     | Some sku => sku_name sku
     | None => None
     end).

(** A breakdown as it is logged: nothing for an empty list, else the title
    and one line for each detail. *)
Definition breakdown_lines (title : msg) (details : list msg) : list entry :=
  match details with
  | [] => []
  | _ :: _ => (INFO, title) :: map (fun d => (INFO, d)) details
  end.

(** A deployment with a provisioned sku and the target name. *)
Definition named_provisioned (deployment_name : string) (dep : Deployment) : bool :=
  provisioned_sku dep && name_is (dep_name dep) deployment_name.

(** The payload carries a null operation name. *)
Definition null_operation_event : EventGridEvent :=
  {| id := "evt-2"; event_type := "Microsoft.Resources.ResourceWriteSuccess";
     subject := "/subscriptions/sub1/resourceGroups/rg1/providers/Microsoft.CognitiveServices/accounts/acct1/deployments/gpt4";
     event_time := "2025-01-01T00:00:00Z";
     get_json := [("operationName", JNull)] |}.

(** The payload carries no operation name. *)
Definition silent_event : EventGridEvent :=
  {| id := "evt-3"; event_type := "Microsoft.Resources.ResourceWriteSuccess";
     subject := "/subscriptions/sub1/resourceGroups/rg1/providers/Microsoft.CognitiveServices/accounts/acct1/deployments/gpt4";
     event_time := "2025-01-01T00:00:00Z";
     get_json := [("status", JStr "Succeeded")] |}.

(** The listing of the deployments breaks off after two of them. *)
Definition interrupted_env : Env :=
  {| DefaultAzureCredential := Return tt;
     CognitiveServicesManagementClient := fun _ => Return tt;
     deployments_list := fun _ _ _ =>
       Return {| yields := [deployment "embeddings" "ProvisionedManaged" (Some 10);
                            deployment "gpt4" "ProvisionedManaged" (Some 20)];
                 breaks := Some (SdkError "connection reset") |};
     AzureReservationAPI := Return tt;
     reservation_order_list := Return {| yields := [first_order]; breaks := None |};
     reservation_list := fun _ =>
       Return {| yields := sample_reservations; breaks := None |} |}.

(** The reservation client cannot be built. *)
Definition unreserved_env : Env :=
  {| DefaultAzureCredential := Return tt;
     CognitiveServicesManagementClient := fun _ => Return tt;
     deployments_list := fun _ _ _ =>
       Return {| yields := sample_deployments; breaks := None |};
     AzureReservationAPI := Raise (SdkError "forbidden");
     reservation_order_list := Return {| yields := [first_order]; breaks := None |};
     reservation_list := fun _ =>
       Return {| yields := sample_reservations; breaks := None |} |}.

(** How step 1 ends and what it logs, read off the collaborators alone. *)
Definition step_one_outcome (env : Env) (sub rg acc name : string)
  : result unit * list entry :=
  match CognitiveServicesManagementClient env sub with
  | Raise e => (Raise e, [(INFO, ScanningDeployments acc)])
  | Return _ =>
      match deployments_list env sub rg acc with
      | Raise e => (Raise e, [(INFO, ScanningDeployments acc)])
      | Return p =>
          let warnings :=
            map (fun d => (WARNING, NewDeployment name (capacity_of d)))
                (filter (named_provisioned name) (yields p)) in
          match breaks p with
          | Some e => (Raise e, (INFO, ScanningDeployments acc) :: warnings)
          | None =>
              (Return tt,
               (INFO, ScanningDeployments acc)
               :: warnings
               ++ (INFO, TotalDeployed (spec_total_deployed (yields p)))
               :: breakdown_lines DeploymentBreakdown
                    (map detail_of (filter provisioned_sku (yields p))))
          end
      end
  end.

(** * Properties *)

(** ** Running the monad *)

Section MonadFacts.

Context {S : Type}.
Implicit Types s : S.

Lemma bind_run_return {A B} (m : M S A) (k : A -> M S B) s a :
  value (m s) = Return a ->
  bind m k s = Run (value (k a (frame (m s)))) (frame (k a (frame (m s))))
                   (emitted (m s) ++ emitted (k a (frame (m s)))).
Proof.
  intros H. unfold bind. destruct (m s) as [v f l]. simpl in *. subst v.
  destruct (k a f); reflexivity.
Qed.

Lemma bind_run_raise {A B} (m : M S A) (k : A -> M S B) s e :
  value (m s) = Raise e ->
  bind m k s = Run (Raise e) (frame (m s)) (emitted (m s)).
Proof.
  intros H. unfold bind. destruct (m s) as [v f l]. simpl in *. subst v.
  reflexivity.
Qed.

Lemma try_except_run_return (body : M S unit) (handler : exn -> M S unit) s :
  value (body s) = Return tt -> try_except body handler s = body s.
Proof.
  intros H. unfold try_except. destruct (body s) as [v f l]. simpl in *. subst v.
  reflexivity.
Qed.

Lemma try_except_run_raise (body : M S unit) (handler : exn -> M S unit) s e :
  value (body s) = Raise e ->
  try_except body handler s
  = Run (value (handler e (frame (body s)))) (frame (handler e (frame (body s))))
        (emitted (body s) ++ emitted (handler e (frame (body s)))).
Proof.
  intros H. unfold try_except. destruct (body s) as [v f l]. simpl in *. subst v.
  destruct (handler e f); reflexivity.
Qed.

Lemma returns_ret : returns (S:=S) (ret tt).
Proof. intros s. reflexivity. Qed.

Lemma returns_logging l t : returns (S:=S) (logging l t).
Proof. intros s. reflexivity. Qed.

Lemma returns_bind (m k : M S unit) :
  returns m -> returns k -> returns (m ;; k).
Proof.
  intros Hm Hk s. rewrite (bind_run_return _ _ _ tt (Hm s)). simpl. apply Hk.
Qed.

Lemma returns_when c (m : M S unit) : returns m -> returns (when c m).
Proof. intros Hm. destruct c; simpl; auto using returns_ret. Qed.

Lemma returns_for_each {A} (items : list A) (body : A -> M S unit) :
  (forall x, returns (body x)) -> returns (for_each items body).
Proof.
  intros Hb. induction items as [|x r IH]; simpl.
  - apply returns_ret.
  - apply returns_bind; auto.
Qed.

Lemma returns_try_except (body : M S unit) (handler : exn -> M S unit) :
  (forall e, returns (handler e)) -> returns (try_except body handler).
Proof.
  intros Hh s. unfold try_except.
  destruct (body s) as [[[]|e] f l] eqn:E; simpl.
  - reflexivity.
  - specialize (Hh e f). destruct (handler e f). exact Hh.
Qed.

Lemma for_each_frame {A} (items : list A) (body : A -> M S unit) s :
  (forall x, returns (body x)) ->
  frame (for_each items body s) = fold_left (fun s' x => frame (body x s')) items s.
Proof.
  intros Hb. revert s. induction items as [|x r IH]; intros s; simpl.
  - reflexivity.
  - rewrite (bind_run_return _ _ _ tt (Hb x s)). simpl. apply IH.
Qed.

Lemma for_in_value {A} (p : pager A) (body : A -> M S unit) s :
  (forall x, returns (body x)) ->
  value (for_in p body s)
  = match breaks p with None => Return tt | Some e => Raise e end.
Proof.
  intros Hb. unfold for_in.
  rewrite (bind_run_return _ _ _ tt (returns_for_each _ _ Hb s)). simpl.
  destruct (breaks p); reflexivity.
Qed.

Lemma for_in_frame {A} (p : pager A) (body : A -> M S unit) s :
  (forall x, returns (body x)) ->
  frame (for_in p body s) = frame (for_each (yields p) body s).
Proof.
  intros Hb. unfold for_in.
  rewrite (bind_run_return _ _ _ tt (returns_for_each _ _ Hb s)). simpl.
  destruct (breaks p); reflexivity.
Qed.

End MonadFacts.

Lemma returns_compare_and_report name : returns (compare_and_report name).
Proof.
  intros s. unfold compare_and_report, bind, read, logging, when. simpl.
  destruct (total_reserved_ptus (vars s) =? 0); simpl; [reflexivity|].
  destruct (total_deployed_ptus (vars s) <=? total_reserved_ptus (vars s)); simpl;
    [reflexivity|].
  destruct (0 <? new_deployment_ptus (vars s)); reflexivity.
Qed.

(** ** Strings and attributes *)

Lemma lower_startswith s p :
  PyStr.startswith (PyStr.lower s) (PyStr.lower p) = begins_with_ci s p.
Proof.
  revert s. induction p as [|a p IH]; intros [|b s]; simpl; try reflexivity.
  unfold same_letter. rewrite IH. reflexivity.
Qed.

Lemma sku_test (n : option string) :
  (PyStr.truthy n
   && match n with
      | Some x => PyStr.startswith (PyStr.lower x) "provisioned"
      | None => false
      end)%bool
  = match n with
    | Some x => begins_with_ci x "provisioned"
    | None => false
    end.
Proof.
  destruct n as [[|c x]|]; try reflexivity.
  change "provisioned" with (PyStr.lower "provisioned") at 1.
  rewrite lower_startswith. reflexivity.
Qed.

Lemma or_zero_value o : or_zero o = match o with Some n => n | None => 0 end.
Proof.
  destruct o as [n|]; simpl; [|reflexivity].
  destruct (n =? 0) eqn:E; [apply Z.eqb_eq in E; lia | reflexivity].
Qed.

(** ** The loop over the deployments *)

Ltac run_body :=
  unfold bind, read, assign, logging, when, ret; simpl.

Lemma deployment_body_returns name dep : returns (deployment_body name dep).
Proof.
  intros s. unfold deployment_body.
  destruct (dep_sku dep) as [sku|]; [|reflexivity].
  rewrite sku_test. destruct (sku_name sku) as [n|]; [|reflexivity].
  destruct (begins_with_ci n "provisioned"); [|reflexivity].
  run_body. destruct (name_is (dep_name dep) name); reflexivity.
Qed.

Lemma deployment_body_total name dep s :
  total_deployed_ptus (vars (frame (deployment_body name dep s)))
  = total_deployed_ptus (vars s) + (if provisioned_sku dep then capacity_of dep else 0).
Proof.
  unfold deployment_body, provisioned_sku, capacity_of.
  destruct (dep_sku dep) as [sku|]; [|simpl; lia].
  rewrite sku_test, or_zero_value. destruct (sku_name sku) as [n|]; [|simpl; lia].
  destruct (begins_with_ci n "provisioned"); [|simpl; lia].
  run_body. destruct (name_is (dep_name dep) name); reflexivity.
Qed.

Lemma deployment_body_new name dep s :
  new_deployment_ptus (vars (frame (deployment_body name dep s)))
  = if (provisioned_sku dep && name_is (dep_name dep) name)%bool
    then capacity_of dep
    else new_deployment_ptus (vars s).
Proof.
  unfold deployment_body, provisioned_sku, capacity_of.
  destruct (dep_sku dep) as [sku|]; [|reflexivity].
  rewrite sku_test, or_zero_value. destruct (sku_name sku) as [n|]; [|reflexivity].
  destruct (begins_with_ci n "provisioned"); [|reflexivity].
  run_body. destruct (name_is (dep_name dep) name); reflexivity.
Qed.

Lemma deployments_loop_total name l s :
  total_deployed_ptus (vars (frame (for_each l (deployment_body name) s)))
  = total_deployed_ptus (vars s) + spec_total_deployed l.
Proof.
  rewrite for_each_frame by apply deployment_body_returns.
  revert s. induction l as [|dep l IH]; intros s; simpl.
  - unfold spec_total_deployed. simpl. lia.
  - rewrite IH, deployment_body_total. unfold spec_total_deployed. simpl.
    destruct (provisioned_sku dep); simpl; lia.
Qed.

Lemma last_any_default {A} (c : A) cs d1 d2 : last (c :: cs) d1 = last (c :: cs) d2.
Proof.
  revert c. induction cs as [|c' cs IH]; intros c; [reflexivity|].
  change (last (c' :: cs) d1 = last (c' :: cs) d2). apply IH.
Qed.

Lemma deployments_loop_new name l s :
  new_deployment_ptus (vars (frame (for_each l (deployment_body name) s)))
  = last (map capacity_of
            (filter (fun dep => provisioned_sku dep && name_is (dep_name dep) name)%bool l))
         (new_deployment_ptus (vars s)).
Proof.
  rewrite for_each_frame by apply deployment_body_returns.
  revert s. induction l as [|dep l IH]; intros s; simpl.
  - reflexivity.
  - rewrite IH, deployment_body_new.
    destruct (provisioned_sku dep && name_is (dep_name dep) name)%bool; [|reflexivity].
    simpl.
    destruct (map capacity_of
                (filter (fun dep0 => provisioned_sku dep0 && name_is (dep_name dep0) name)%bool l))
      as [|c cs] eqn:E.
    + reflexivity.
    + apply last_any_default.
Qed.

Lemma deployments_loop_returns name l : returns (for_each l (deployment_body name)).
Proof. apply returns_for_each. intros dep. apply deployment_body_returns. Qed.


Lemma log_lines_run {S} (details : list msg) (s : S) :
  value (for_each details (fun d => logging INFO d) s) = Return tt /\
  frame (for_each details (fun d => logging INFO d) s) = s.
Proof.
  split.
  - apply returns_for_each. intros d. apply returns_logging.
  - rewrite for_each_frame by (intros d; apply returns_logging).
    induction details as [|d l IH]; simpl; auto.
Qed.

Lemma log_breakdown_run {S} title (details : list msg) (s : S) :
  value (log_breakdown title details s) = Return tt /\
  frame (log_breakdown title details s) = s.
Proof.
  unfold log_breakdown. destruct (negb _); simpl; [|split; reflexivity].
  unfold bind, logging.
  destruct (log_lines_run details s) as [Hv Hf].
  destruct (for_each details _ s) as [v f em]. simpl in *. subst. split; reflexivity.
Qed.

Lemma scan_deployments_run env sub rg acc name p s :
  CognitiveServicesManagementClient env sub = Return tt ->
  deployments_list env sub rg acc = Return p ->
  let r := scan_deployments env sub rg acc name s in
  value r = match breaks p with None => Return tt | Some e => Raise e end /\
  total_deployed_ptus (vars (frame r)) = spec_total_deployed (yields p) /\
  new_deployment_ptus (vars (frame r)) = last_named name (yields p) /\
  (breaks p = None ->
   In (INFO, TotalDeployed (spec_total_deployed (yields p))) (emitted r)).
Proof.
  intros Hc Hl. unfold scan_deployments, for_in.
  unfold bind, lift, logging, assign, read, ret, raise. rewrite Hc, Hl. simpl.
  set (s0 := {| vars := _; trail := _ |}).
  pose proof (deployments_loop_returns name (yields p) s0) as Hv.
  pose proof (deployments_loop_total name (yields p) s0) as Ht.
  pose proof (deployments_loop_new name (yields p) s0) as Hn.
  destruct (for_each (yields p) (deployment_body name) s0) as [v f em].
  simpl in Hv, Ht, Hn. subst v. fold (last_named name (yields p)) in Hn.
  destruct (breaks p) as [e|]; simpl.
  - repeat split; [exact Ht | exact Hn | discriminate].
  - destruct (log_breakdown_run DeploymentBreakdown (deployment_details (vars f)) f)
      as [Hbv Hbf].
    destruct (log_breakdown DeploymentBreakdown (deployment_details (vars f)) f)
      as [v' f' em'].
    simpl in Hbv, Hbf. subst v' f'. simpl.
    repeat split; [exact Ht | exact Hn |].
    intros _. right. apply in_or_app. right. rewrite Ht. left. reflexivity.
Qed.

(** ** The loops over the reservations *)

(** The body stops at its first statement, on every reservation: the
    attribute read there is none of a [ReservationResponse]. *)
Lemma reservation_body_run r s :
  reservation_body r s = Run (Raise AttributeError) s [].
Proof. reflexivity. Qed.

Lemma reservations_loop_run l s :
  for_each l reservation_body s
  = Run (match l with
         | [] => Return tt
         | _ :: _ => Raise AttributeError
         end) s [].
Proof. destruct l; reflexivity. Qed.

Lemma reservations_pager_run (p : pager Reservation) s :
  for_in p reservation_body s
  = Run (match yields p with
         | _ :: _ => Raise AttributeError
         | [] => match breaks p with
                 | Some e => Raise e
                 | None => Return tt
                 end
         end) s [].
Proof.
  unfold for_in, bind. rewrite reservations_loop_run.
  destruct (yields p); [destruct (breaks p)|]; reflexivity.
Qed.

(** The loop over the orders ends as [failure_from] says, without a change
    to the variables and without a line logged. *)
Lemma orders_loop_run env orders s :
  for_each orders
    (fun order =>
       reservations <- lift (reservation_list env (order_name order)) ;;
       for_in reservations reservation_body) s
  = Run (match failure_from env orders with
         | None => Return tt
         | Some e => Raise e
         end) s [].
Proof.
  set (body := fun order : ReservationOrder => _).
  assert (Hb : forall o,
             body o s
             = Run (match reservation_list env (order_name o) with
                    | Raise e => Raise e
                    | Return p =>
                        match yields p with
                        | _ :: _ => Raise AttributeError
                        | [] => match breaks p with
                                | Some e => Raise e
                                | None => Return tt
                                end
                        end
                    end) s []).
  { intros o. unfold body, bind.
    destruct (reservation_list env (order_name o)) as [p|e]; simpl; [|reflexivity].
    rewrite reservations_pager_run. reflexivity. }
  induction orders as [|o rest IH]; [reflexivity|].
  cbn [for_each failure_from]. unfold bind. rewrite Hb.
  destruct (reservation_list env (order_name o)) as [p|e]; [|reflexivity].
  destruct (yields p); [|reflexivity].
  destruct (breaks p); [reflexivity|].
  rewrite IH. destruct (failure_from env rest); reflexivity.
Qed.

Lemma enumerate_reservations_run env s :
  enumerate_reservations env s
  = Run (match enumeration_failure env with
         | None => Return tt
         | Some e => Raise e
         end) s [].
Proof.
  unfold enumerate_reservations, enumeration_failure.
  destruct (AzureReservationAPI env) as [[]|e]; [|reflexivity].
  destruct (reservation_order_list env) as [p|e]; [|reflexivity].
  rewrite (bind_run_return (lift (Return tt)) _ s tt eq_refl).
  cbn [value frame emitted lift ret].
  rewrite (bind_run_return (lift (Return p)) _ s p eq_refl).
  cbn [value frame emitted lift ret]. unfold for_in.
  pose proof (orders_loop_run env (yields p) s) as Hl.
  destruct (failure_from env (yields p)) as [e|].
  - rewrite (bind_run_raise _ _ s e (f_equal value Hl)), Hl. reflexivity.
  - rewrite (bind_run_return _ _ s tt (f_equal value Hl)), Hl.
    cbn [value frame emitted]. destruct (breaks p); reflexivity.
Qed.

(** ** Properties of the frame that a computation keeps *)

Section Keeps.

Variable I : cframe -> Prop.

Lemma keeps_ret {A} (a : A) : keeps I (ret a).
Proof. intros s Hs. exact Hs. Qed.

Lemma keeps_raise {A} e : keeps I (raise (A:=A) e).
Proof. intros s Hs. exact Hs. Qed.

Lemma keeps_lift {A} (x : result A) : keeps I (lift x).
Proof. destruct x; [apply keeps_ret | apply keeps_raise]. Qed.

Lemma keeps_logging l t : keeps I (logging l t).
Proof. intros s Hs. exact Hs. Qed.

Lemma keeps_logging_exception e : keeps I (logging_exception e).
Proof. intros s Hs. exact Hs. Qed.

Lemma keeps_read {A} (f : locals -> A) : keeps I (read f).
Proof. intros s Hs. exact Hs. Qed.

Lemma keeps_bind {A B} (m : M cframe A) (k : A -> M cframe B) :
  keeps I m -> (forall a, keeps I (k a)) -> keeps I (bind m k).
Proof.
  intros Hm Hk s Hs. unfold bind. specialize (Hm s Hs).
  destruct (m s) as [[a|e] f l]; simpl in *.
  - specialize (Hk a f Hm). destruct (k a f). exact Hk.
  - exact Hm.
Qed.

Lemma keeps_lift_bind {A B} (x : result A) (k : A -> M cframe B) :
  (forall a, x = Return a -> keeps I (k a)) -> keeps I (bind (lift x) k).
Proof.
  intros Hk s Hs. destruct x as [a|e]; unfold bind; simpl.
  - specialize (Hk a eq_refl s Hs). destruct (k a s). exact Hk.
  - exact Hs.
Qed.

Lemma keeps_when c (m : M cframe unit) : keeps I m -> keeps I (when c m).
Proof. intros Hm. destruct c; [exact Hm | apply keeps_ret]. Qed.

Lemma keeps_for_each {A} (items : list A) (body : A -> M cframe unit) :
  (forall x, In x items -> keeps I (body x)) -> keeps I (for_each items body).
Proof.
  induction items as [|x r IH]; intros Hb; simpl.
  - apply keeps_ret.
  - apply keeps_bind.
    + apply Hb. left. reflexivity.
    + intros _. apply IH. intros y Hy. apply Hb. right. exact Hy.
Qed.

Lemma keeps_for_in {A} (p : pager A) (body : A -> M cframe unit) :
  (forall x, In x (yields p) -> keeps I (body x)) -> keeps I (for_in p body).
Proof.
  intros Hb. unfold for_in. apply keeps_bind.
  - apply keeps_for_each, Hb.
  - intros _. destruct (breaks p); [apply keeps_raise | apply keeps_ret].
Qed.

Lemma keeps_try_except (body : M cframe unit) (handler : exn -> M cframe unit) :
  keeps I body -> (forall e, keeps I (handler e)) -> keeps I (try_except body handler).
Proof.
  intros Hb Hh s Hs. unfold try_except. specialize (Hb s Hs).
  destruct (body s) as [[a|e] f l]; simpl in *.
  - exact Hb.
  - specialize (Hh e f Hb). destruct (handler e f). exact Hh.
Qed.

Lemma keeps_log_breakdown title details : keeps I (log_breakdown title details).
Proof.
  unfold log_breakdown. apply keeps_when, keeps_bind.
  - apply keeps_logging.
  - intros _. apply keeps_for_each. intros d _. apply keeps_logging.
Qed.

Lemma keeps_compare_and_report name : keeps I (compare_and_report name).
Proof.
  intros s Hs. unfold compare_and_report, bind, read, logging, when. simpl.
  destruct (total_reserved_ptus (vars s) =? 0); simpl; [exact Hs|].
  destruct (total_deployed_ptus (vars s) <=? total_reserved_ptus (vars s)); simpl;
    [exact Hs|].
  destruct (0 <? new_deployment_ptus (vars s)); exact Hs.
Qed.

End Keeps.

Create HintDb keeps.

#[local] Hint Resolve keeps_ret keeps_raise keeps_lift keeps_logging
  keeps_logging_exception keeps_read keeps_when keeps_log_breakdown keeps_compare_and_report : keeps.

(** Walks down a sequence of statements for as long as each of them keeps
    the property by one of the hints. *)
Ltac keeps_step :=
  apply keeps_bind; [solve [auto with keeps] | intros ?].

Ltac keeps_steps := repeat keeps_step.

(** *** The deployed total and the new deployment's capacity are left alone
    by step 2 *)

Lemma assign_keeps_deployed d n f :
  (forall v, total_deployed_ptus (f v) = total_deployed_ptus v) ->
  (forall v, new_deployment_ptus (f v) = new_deployment_ptus v) ->
  keeps (fun s => total_deployed_ptus (vars s) = d /\ new_deployment_ptus (vars s) = n)
        (assign f).
Proof.
  intros Hd Hn s [H1 H2]. unfold assign. simpl. rewrite Hd, Hn. split; assumption.
Qed.

#[local] Hint Extern 2 (keeps _ (assign (set_total_reserved _))) =>
  apply assign_keeps_deployed; reflexivity : keeps.
#[local] Hint Extern 2 (keeps _ (assign (set_reservation_details _))) =>
  apply assign_keeps_deployed; reflexivity : keeps.

Lemma reservation_body_keeps_deployed d n r :
  keeps (fun s => total_deployed_ptus (vars s) = d /\ new_deployment_ptus (vars s) = n)
        (reservation_body r).
Proof. intros s Hs. rewrite reservation_body_run. exact Hs. Qed.

Lemma scan_reservations_keeps_deployed env d n :
  keeps (fun s => total_deployed_ptus (vars s) = d /\ new_deployment_ptus (vars s) = n)
        (scan_reservations env).
Proof.
  unfold scan_reservations. keeps_steps.
  apply keeps_bind; [|intros _; keeps_steps; auto with keeps].
  apply keeps_try_except; [|intros e; keeps_steps; auto with keeps].
  unfold enumerate_reservations. keeps_steps.
  apply keeps_for_in. intros o _. keeps_steps.
  apply keeps_for_in. intros r _. apply reservation_body_keeps_deployed.
Qed.

(** *** Non-negative totals *)

Lemma or_zero_nonneg o : absent_or_nonneg o -> 0 <= or_zero o.
Proof. rewrite or_zero_value. destruct o; simpl; lia. Qed.

Lemma assign_keeps_nonneg f :
  (forall v, nonneg v -> nonneg (f v)) -> keeps always_nonneg (assign f).
Proof.
  intros Hf s [Hv Ht]. unfold assign. simpl. split; simpl.
  - apply Hf, Hv.
  - constructor; [apply Hf, Hv | exact Ht].
Qed.

#[local] Hint Extern 2 (keeps always_nonneg (assign _)) =>
  apply assign_keeps_nonneg; unfold nonneg; simpl; intuition lia : keeps.

Lemma deployment_body_keeps_nonneg name dep :
  deployment_fields_nonneg dep -> keeps always_nonneg (deployment_body name dep).
Proof.
  unfold deployment_fields_nonneg, deployment_body.
  destruct (dep_sku dep) as [sku|]; [|intros _; apply keeps_ret].
  intros Hc. apply or_zero_nonneg in Hc.
  apply keeps_when. intros s [(Hd & Hr & Hn) Ht].
  run_body. destruct (name_is (dep_name dep) name); simpl.
  all: split; simpl; repeat apply Forall_cons; try exact Ht.
  all: unfold nonneg; simpl; lia.
Qed.

Lemma reservation_body_keeps_nonneg r :
  absent_or_nonneg (quantity r) -> keeps always_nonneg (reservation_body r).
Proof. intros _ s Hs. rewrite reservation_body_run. exact Hs. Qed.

Lemma scan_deployments_keeps_nonneg env sub rg acc name :
  fields_nonneg env -> keeps always_nonneg (scan_deployments env sub rg acc name).
Proof.
  intros [Hd _]. unfold scan_deployments. do 5 keeps_step.
  apply keeps_lift_bind. intros p Hp.
  apply keeps_bind; [|intros _; keeps_steps; auto with keeps].
  apply keeps_for_in. intros dep Hin. apply deployment_body_keeps_nonneg.
  specialize (Hd _ _ _ _ Hp). rewrite Forall_forall in Hd. apply Hd, Hin.
Qed.

Lemma scan_reservations_keeps_nonneg env :
  fields_nonneg env -> keeps always_nonneg (scan_reservations env).
Proof.
  intros [_ Hr]. unfold scan_reservations. keeps_steps.
  apply keeps_bind; [|intros _; keeps_steps; auto with keeps].
  apply keeps_try_except; [|intros e; keeps_steps; auto with keeps].
  unfold enumerate_reservations. keeps_steps.
  apply keeps_for_in. intros o _.
  apply keeps_lift_bind. intros p Hp.
  apply keeps_for_in. intros r Hin. apply reservation_body_keeps_nonneg.
  specialize (Hr _ _ Hp). rewrite Forall_forall in Hr. apply Hr, Hin.
Qed.

Lemma check_ptu_capacity_keeps_nonneg env sub rg acc name :
  fields_nonneg env -> keeps always_nonneg (check_ptu_capacity env sub rg acc name).
Proof.
  intros He. unfold check_ptu_capacity. keeps_steps.
  apply keeps_try_except; [|intros e; keeps_steps; auto with keeps].
  unfold capacity_steps. keeps_steps.
  apply keeps_bind; [apply scan_deployments_keeps_nonneg, He | intros _].
  apply keeps_bind; [apply scan_reservations_keeps_nonneg, He | intros _].
  apply keeps_compare_and_report.
Qed.

Lemma fresh_nonneg : always_nonneg fresh.
Proof. split; [|repeat constructor]; unfold nonneg; simpl; lia. Qed.


(** ** The handler *)

Lemma guarded_processing_returns env event : returns (guarded_processing env event).
Proof.
  apply returns_try_except. intros e.
  apply returns_bind; apply returns_logging.
Qed.

Lemma handler_run env event :
  ptu_ri_alert_function env event tt =
  match is_deployment_event (subject event) (operation_name_of event) with
  | Raise e => Run (Raise e) tt (opening_lines event)
  | Return false =>
      Run (Return (success event)) tt
          (opening_lines event ++ [(INFO, NonDeploymentSkip)] ++ closing_lines)
  | Return true =>
      Run (Return (success event)) tt
          (opening_lines event
           ++ [(WARNING, DeploymentDetected); (WARNING, Resource (subject event))]
           ++ emitted (guarded_processing env event tt) ++ closing_lines)
  end.
Proof.
  unfold ptu_ri_alert_function, operation_name_of.
  fold (guarded_processing env event).
  destruct (is_deployment_event (subject event) _) as [[|]|e] eqn:E.
  - pose proof (guarded_processing_returns env event tt) as Hv.
    unfold bind, logging, lift, ret. simpl.
    destruct (guarded_processing env event tt) as [v [] l]. simpl in Hv. subst v.
    simpl. reflexivity.
  - reflexivity.
  - reflexivity.
Qed.

Lemma check_ptu_capacity_run env sub rg acc name s :
  check_ptu_capacity env sub rg acc name s =
  let r := capacity_steps env sub rg acc name s in
  match value r with
  | Return _ => Run (Return tt) (frame r) (banner3 ++ emitted r)
  | Raise e =>
      Run (Return tt) (frame r)
          (banner3 ++ emitted r ++ [(ERROR, ErrorChecking e); (ERROR, Traceback e)])
  end.
Proof.
  unfold check_ptu_capacity, bind, try_except, logging, logging_exception. simpl.
  destruct (capacity_steps env sub rg acc name s) as [[[]|e] f l]; reflexivity.
Qed.

(** The lines of a processed event: the four lines about the subject, then
    whatever the checker logs. *)
Lemma process_deployment_event_run env event a b c d :
  value (parse_subject (S:=unit) (subject event) tt) = Return (a, b, c, d) ->
  process_deployment_event env event tt =
  Run (Return tt) tt
      ([(INFO, Subscription a); (INFO, ResourceGroup b); (INFO, Account c);
        (INFO, DeploymentName d)]
       ++ emitted (check_ptu_capacity env a b c d fresh)).
Proof.
  intros Hp. unfold process_deployment_event.
  rewrite (bind_run_return _ _ _ _ Hp).
  assert (Hf : emitted (parse_subject (S:=unit) (subject event) tt) = []).
  { clear. unfold parse_subject, index.
    repeat match goal with
           | |- context [nth_error ?l ?n] => destruct (nth_error l n)
           | |- context [(10 <? ?n)%nat] => destruct (10 <? n)%nat
           end; reflexivity. }
  rewrite Hf. destruct (frame (parse_subject (subject event) tt)).
  unfold bind, logging, call. simpl.
  rewrite check_ptu_capacity_run.
  destruct (capacity_steps env a b c d fresh) as [[[]|e] f l]; reflexivity.
Qed.

(** ** Step 2 as a whole *)

(** What [scan_reservations] does, in terms of the run of the statements
    inside its [try]. *)
Lemma scan_reservations_eq env s :
  scan_reservations env s =
  let v1 := set_total_reserved 0 (vars s) in
  let v2 := set_reservation_details [] v1 in
  let y := enumerate_reservations env {| vars := v2; trail := v2 :: v1 :: trail s |} in
  Run (Return tt) (frame y)
      ((INFO, CheckingReservations)
       :: emitted y
       ++ match value y with
          | Raise e => [(WARNING, CouldNotQuery e); (WARNING, ReservationDelayNote)]
          | Return _ => []
          end
       ++ (INFO, TotalReserved (total_reserved_ptus (vars (frame y))))
       :: emitted (log_breakdown ReservationBreakdown
                     (reservation_details (vars (frame y))) (frame y))).
Proof.
  unfold scan_reservations, bind, logging, assign, read, try_except. simpl.
  destruct (enumerate_reservations env _) as [[[]|e] f l]; simpl.
  - destruct (log_breakdown_run ReservationBreakdown (reservation_details (vars f)) f)
      as [Hv Hf].
    destruct (log_breakdown ReservationBreakdown (reservation_details (vars f)) f)
      as [v' f' l'].
    simpl in Hv, Hf. subst v' f'. simpl. reflexivity.
  - destruct (log_breakdown_run ReservationBreakdown (reservation_details (vars f)) f)
      as [Hv Hf].
    destruct (log_breakdown ReservationBreakdown (reservation_details (vars f)) f)
      as [v' f' l'].
    simpl in Hv, Hf. subst v' f'. simpl. rewrite <- app_assoc. reflexivity.
Qed.

(** Step 2 in full: the two assignments, the contained enumeration, and
    a total that is still 0 when it is logged. *)
Lemma scan_reservations_closed env s :
  scan_reservations env s =
  let v1 := set_total_reserved 0 (vars s) in
  let v2 := set_reservation_details [] v1 in
  Run (Return tt) {| vars := v2; trail := v2 :: v1 :: trail s |}
      ((INFO, CheckingReservations)
       :: match enumeration_failure env with
          | Some e => [(WARNING, CouldNotQuery e); (WARNING, ReservationDelayNote)]
          | None => []
          end
       ++ [(INFO, TotalReserved 0)]).
Proof.
  rewrite scan_reservations_eq. cbv zeta. rewrite enumerate_reservations_run.
  cbn [value frame emitted].
  destruct (enumeration_failure env); reflexivity.
Qed.

Lemma scan_reservations_run env s :
  let r := scan_reservations env s in
  value r = Return tt /\
  total_reserved_ptus (vars (frame r)) = 0 /\
  In (INFO, TotalReserved 0) (emitted r) /\
  match enumeration_failure env with
  | Some e => In (WARNING, CouldNotQuery e) (emitted r)
              /\ In (WARNING, ReservationDelayNote) (emitted r)
  | None => True
  end.
Proof.
  rewrite scan_reservations_closed. cbv zeta. cbn [value frame emitted vars].
  split; [reflexivity|]. split; [reflexivity|]. split.
  - right. apply in_or_app. right. left. reflexivity.
  - destruct (enumeration_failure env) as [e|]; [|exact I].
    split; simpl; tauto.
Qed.

(** * The properties of the specification *)

(** ** Classification *)

(** C1. For all totals the checker has computed, the report takes exactly
    one of three cases, tested in this order: no reservation at all (reserved
    = 0); fully covered (deployed <= reserved), with the slack reserved -
    deployed logged; exceeding (deployed > reserved), with the excess
    deployed - reserved logged.  In each case exactly one outcome line is
    logged. *)
Theorem classification_has_three_cases name s :
  let deployed := total_deployed_ptus (vars s) in
  let reserved := total_reserved_ptus (vars s) in
  let lines := emitted (compare_and_report name s) in
  (reserved = 0 ->
   filter is_outcome lines = [(WARNING, NoReservationsFound)]) /\
  (reserved <> 0 -> deployed <= reserved ->
   filter is_outcome lines = [(INFO, FullyCovered)] /\
   In (INFO, Available (reserved - deployed)) lines) /\
  (reserved <> 0 -> reserved < deployed ->
   filter is_outcome lines = [(ERROR, ExceedsReservations)] /\
   In (ERROR, Excess (deployed - reserved)) lines).
Proof.
  cbv zeta. unfold compare_and_report, bind, read, logging, when. simpl.
  destruct (total_reserved_ptus (vars s) =? 0) eqn:E0.
  - apply Z.eqb_eq in E0. simpl.
    split; [reflexivity|]. split; intros; contradiction.
  - apply Z.eqb_neq in E0.
    destruct (total_deployed_ptus (vars s) <=? total_reserved_ptus (vars s)) eqn:E1.
    + apply Z.leb_le in E1. simpl.
      split; [intros; contradiction|]. split.
      * intros _ _. split; [reflexivity|]. simpl. tauto.
      * intros _ Hlt. lia.
    + apply Z.leb_gt in E1.
      split; [intros; contradiction|]. split; [intros _ Hle; lia|].
      intros _ _.
      destruct (0 <? new_deployment_ptus (vars s)); simpl;
        (split; [reflexivity | tauto]).
Qed.

(** The specification's example: 35 deployed against 100 reserved is fully
    covered with a slack of 65. *)
Lemma classification_example_covered :
  In (INFO, Available 65) (emitted (compare_and_report "gpt4" (frame_with 35 100 20))).
Proof.
  apply (proj1 (proj2 (classification_has_three_cases "gpt4" (frame_with 35 100 20))));
    simpl; lia.
Defined.

(** ** The three steps in a row *)

Lemma compare_and_report_frame name s : frame (compare_and_report name s) = s.
Proof. apply (keeps_compare_and_report (fun s' => s' = s) name s eq_refl). Qed.

(** With a credential at hand and step 1 returning normally, the checker
    runs its three steps one after the other. *)
Lemma capacity_steps_eq env sub rg acc name s :
  DefaultAzureCredential env = Return tt ->
  value (scan_deployments env sub rg acc name s) = Return tt ->
  capacity_steps env sub rg acc name s =
  let r1 := scan_deployments env sub rg acc name s in
  let r2 := scan_reservations env (frame r1) in
  Run (Return tt) (frame r2)
      (emitted r1 ++ emitted r2 ++ emitted (compare_and_report name (frame r2))).
Proof.
  intros Hcred Hv. unfold capacity_steps. rewrite Hcred.
  rewrite (bind_run_return (lift (Return tt)) _ s tt eq_refl).
  cbn [value frame emitted lift ret].
  rewrite (bind_run_return _ _ _ tt Hv). cbn [value frame emitted].
  rewrite (bind_run_return _ _ _ tt (proj1 (scan_reservations_run env _))).
  cbn [value frame emitted].
  rewrite returns_compare_and_report, compare_and_report_frame. reflexivity.
Qed.

(** ** The two totals *)

(** C2. For every finite list of deployments the client yields, the total
    the checker computes in step 1, logs, and still holds when it returns is
    the sum of the capacities, a missing capacity counted as 0, of exactly
    the deployments whose sku name begins, case-insensitively, with
    'provisioned'. *)
Theorem total_deployed_is_sum_of_provisioned env sub rg acc name l s :
  DefaultAzureCredential env = Return tt ->
  CognitiveServicesManagementClient env sub = Return tt ->
  deployments_list env sub rg acc = Return {| yields := l; breaks := None |} ->
  let r1 := scan_deployments env sub rg acc name s in
  let r := check_ptu_capacity env sub rg acc name s in
  total_deployed_ptus (vars (frame r1)) = spec_total_deployed l /\
  total_deployed_ptus (vars (frame r)) = spec_total_deployed l /\
  In (INFO, TotalDeployed (spec_total_deployed l)) (emitted r).
Proof.
  intros Hcred Hc Hl.
  destruct (scan_deployments_run env sub rg acc name _ s Hc Hl) as (Hv & Ht & Hn & Hlog).
  simpl in Hv, Ht, Hlog. specialize (Hlog eq_refl). cbv zeta.
  split; [exact Ht|].
  rewrite check_ptu_capacity_run, (capacity_steps_eq _ _ _ _ _ _ Hcred Hv).
  cbv zeta. cbn [value frame emitted]. split.
  - apply (scan_reservations_keeps_deployed env _ _ _ (conj Ht Hn)).
  - apply in_or_app. right. apply in_or_app. left. exact Hlog.
Qed.

(** The specification's example: 10 + 20 + 5 = 35, the sku names compared
    without regard to case; the sku that does not begin with the prefix,
    the standard one and the missing one are left out. *)
Lemma total_deployed_example :
  total_deployed_ptus
    (vars (frame (scan_deployments sample_env "sub1" "rg1" "acct1" "gpt4" fresh)))
  = 35.
Proof.
  exact (proj1 (total_deployed_is_sum_of_provisioned
                  sample_env "sub1" "rg1" "acct1" "gpt4" sample_deployments fresh
                  eq_refl eq_refl eq_refl)).
Defined.

(** C3. The reserved total is meant to be the sum of the quantities of the
    reservations whose description contains 'Provisioned Throughput'; for
    the sample reservations that sum is 100.  The code reads the
    description on the reservation itself, where the SDK does not put it:
    the first reservation raises an attribute error, the inner [except]
    catches it, and the total stays 0, so that the report speaks of an
    account without reservations. *)
Lemma reserved_total_misses_the_reservations :
  spec_total_reserved sample_reservations = 100 /\
  total_reserved_ptus (vars (frame (scan_reservations sample_env fresh))) = 0 /\
  In (WARNING, CouldNotQuery AttributeError)
     (emitted (scan_reservations sample_env fresh)) /\
  In (WARNING, NoReservationsFound)
     (emitted (check_ptu_capacity sample_env "sub1" "rg1" "acct1" "gpt4" fresh)).
Proof.
  split; [reflexivity|]. split; [reflexivity|]. split.
  - rewrite scan_reservations_closed. vm_compute. tauto.
  - vm_compute. tauto.
Qed.

(** ** Failure of the reservation enumeration *)

Lemma compare_and_report_header name s :
  In (INFO, ReportHeader) (emitted (compare_and_report name s)).
Proof.
  unfold compare_and_report, bind, read, logging, when. simpl.
  destruct (total_reserved_ptus (vars s) =? 0); [simpl; tauto|].
  destruct (total_deployed_ptus (vars s) <=? total_reserved_ptus (vars s));
    [simpl; tauto|].
  destruct (0 <? new_deployment_ptus (vars s)); simpl; tauto.
Qed.

(** C5. When the enumeration of the reservations raises [e] (the statements
    inside the inner [try] raise it, whatever the frame), the exception
    goes no further than step 2: step 2 returns normally, the warning about
    [e] is logged, the variables are those the interrupted enumeration
    left, with the reserved total at what had been added before the
    failure, which is 0, and the checker goes on with the report of step 3
    on these variables and returns. *)
Theorem reservation_failure_is_contained env sub rg acc name l s e :
  DefaultAzureCredential env = Return tt ->
  CognitiveServicesManagementClient env sub = Return tt ->
  deployments_list env sub rg acc = Return {| yields := l; breaks := None |} ->
  enumeration_failure env = Some e ->
  let r1 := scan_deployments env sub rg acc name s in
  let r2 := scan_reservations env (frame r1) in
  let v1 := set_total_reserved 0 (vars (frame r1)) in
  let v2 := set_reservation_details [] v1 in
  let interrupted :=
    enumerate_reservations env {| vars := v2; trail := v2 :: v1 :: trail (frame r1) |} in
  let r := check_ptu_capacity env sub rg acc name s in
  (forall s', value (enumerate_reservations env s') = Raise e) /\
  value r2 = Return tt /\
  In (WARNING, CouldNotQuery e) (emitted r2) /\
  frame r2 = frame interrupted /\
  total_reserved_ptus (vars (frame r2)) = 0 /\
  r = Run (Return tt) (frame r2)
          (banner3 ++ emitted r1 ++ emitted r2
           ++ emitted (compare_and_report name (frame r2))) /\
  In (WARNING, CouldNotQuery e) (emitted r) /\
  In (INFO, ReportHeader) (emitted r).
Proof.
  intros Hcred Hc Hl He. cbv zeta.
  destruct (scan_deployments_run env sub rg acc name _ s Hc Hl) as (Hv1 & _).
  simpl in Hv1.
  destruct (scan_reservations_run env (frame (scan_deployments env sub rg acc name s)))
    as (Hv & Ht & _ & Hw).
  rewrite He in Hw. destruct Hw as [Hw _].
  split.
  { intros s'. rewrite enumerate_reservations_run, He. reflexivity. }
  split; [exact Hv|]. split; [exact Hw|]. split.
  { rewrite scan_reservations_eq. reflexivity. }
  split; [exact Ht|].
  rewrite check_ptu_capacity_run, (capacity_steps_eq _ _ _ _ _ _ Hcred Hv1).
  cbv zeta. cbn [value frame emitted]. split; [reflexivity|]. split.
  - apply in_or_app. right. apply in_or_app. right. apply in_or_app. left. exact Hw.
  - apply in_or_app. right. apply in_or_app. right. apply in_or_app. right.
    apply compare_and_report_header.
Qed.

(** On the sample account the first reservation reached ends the
    enumeration with an attribute error; the report is written all the
    same. *)
Lemma reservation_failure_example :
  In (WARNING, CouldNotQuery AttributeError)
     (emitted (check_ptu_capacity sample_env "sub1" "rg1" "acct1" "gpt4" fresh)) /\
  In (INFO, ReportHeader)
     (emitted (check_ptu_capacity sample_env "sub1" "rg1" "acct1" "gpt4" fresh)).
Proof.
  exact (proj2 (proj2 (proj2 (proj2 (proj2 (proj2
           (reservation_failure_is_contained sample_env "sub1" "rg1" "acct1" "gpt4"
              sample_deployments fresh AttributeError
              eq_refl eq_refl eq_refl eq_refl))))))).
Defined.

(** ** The filter of the handler *)

(** Every run of the checker logs its heading, so the heading in the log of
    the handler tells whether the checker was called. *)
Lemma check_ptu_capacity_logs_heading env sub rg acc name s :
  In (INFO, CapacityCheck) (emitted (check_ptu_capacity env sub rg acc name s)).
Proof.
  rewrite check_ptu_capacity_run. cbv zeta.
  destruct (value (capacity_steps env sub rg acc name s)); simpl; tauto.
Qed.

(** C4 as the specification words it fails: an operation name that is not
    equal to 'deployments/write' but contains it, as Azure's own
    'Microsoft.CognitiveServices/accounts/deployments/write' does, passes
    the filter, and the checker is called. *)
Lemma unequal_operation_name_still_checked :
  ~ (forall env event,
       PyStr.contains "Microsoft.CognitiveServices/accounts" (subject event) = false \/
       operation_name_of event <> JStr "deployments/write" ->
       let r := ptu_ri_alert_function env event tt in
       ~ In (INFO, CapacityCheck) (emitted r) /\
       In (INFO, NonDeploymentSkip) (emitted r) /\
       value r = Return (success event)).
Proof.
  intros H.
  destruct (H sample_env deployment_event) as [Hno _].
  - right. vm_compute. discriminate.
  - apply Hno. vm_compute. tauto.
Qed.

(** C4, amended. For every event whose subject does not contain
    'Microsoft.CognitiveServices/accounts', or whose operation name does not
    contain 'deployments/write' (the test [in] of line 37 gives False), the
    checker is not called: the handler logs the opening lines, the skip
    line and the closing lines, and returns the success dictionary. *)
Theorem skipped_events_return_success env event :
  PyStr.contains "Microsoft.CognitiveServices/accounts" (subject event) = false \/
  py_in "deployments/write" (operation_name_of event) = Return false ->
  let r := ptu_ri_alert_function env event tt in
  r = Run (Return (success event)) tt
          (opening_lines event ++ [(INFO, NonDeploymentSkip)] ++ closing_lines) /\
  ~ In (INFO, CapacityCheck) (emitted r).
Proof.
  intros H.
  assert (E : is_deployment_event (subject event) (operation_name_of event) = Return false).
  { unfold is_deployment_event. destruct H as [H|H].
    - rewrite H. reflexivity.
    - rewrite H. destruct (PyStr.contains _ (subject event)); reflexivity. }
  cbv zeta. rewrite handler_run, E. split; [reflexivity|].
  simpl. intros Hin.
  repeat (destruct Hin as [Hin|Hin]; [discriminate Hin|]). exact Hin.
Qed.

(** An event on a storage account is skipped. *)
Lemma skipped_event_example :
  value (ptu_ri_alert_function sample_env
           (event_on "/subscriptions/sub1/resourceGroups/rg1/providers/Microsoft.Storage/storageAccounts/st1"
                     "Microsoft.Storage/storageAccounts/write") tt)
  = Return {| status := "success"; event_id := "evt-1";
              r_event_type := "Microsoft.Resources.ResourceWriteSuccess" |}.
Proof.
  exact (f_equal value
           (proj1 (skipped_events_return_success sample_env
                     (event_on "/subscriptions/sub1/resourceGroups/rg1/providers/Microsoft.Storage/storageAccounts/st1"
                               "Microsoft.Storage/storageAccounts/write")
                     (or_introl eq_refl)))).
Defined.

(** ** The outer boundary of the handler *)

(** C6. For every event that passes the filter, the handler returns the
    dictionary {status: 'success', event id, event type}, whatever the
    collaborators do; an exception raised while the subject is parsed or
    the checker runs is logged and goes no further. *)
Theorem handler_always_returns_success env event :
  is_deployment_event (subject event) (operation_name_of event) = Return true ->
  let r := ptu_ri_alert_function env event tt in
  value r = Return {| status := "success"; event_id := id event;
                      r_event_type := event_type event |} /\
  forall e, value (process_deployment_event env event tt) = Raise e ->
            In (ERROR, ErrorProcessing e) (emitted r).
Proof.
  intros E. cbv zeta. rewrite handler_run, E. split; [reflexivity|].
  intros e He. cbn [emitted].
  apply in_or_app. right. apply in_or_app. right. apply in_or_app. left.
  unfold guarded_processing. rewrite (try_except_run_raise _ _ _ _ He).
  cbn [emitted]. apply in_or_app. right. simpl. tauto.
Qed.

(** The subject of [bare_event] is too short to be parsed: the index error
    is logged and the handler still returns success. *)
Lemma handler_success_example :
  value (ptu_ri_alert_function sample_env bare_event tt)
  = Return {| status := "success"; event_id := "evt-1";
              r_event_type := "Microsoft.Resources.ResourceWriteSuccess" |}
  /\ In (ERROR, ErrorProcessing IndexError)
        (emitted (ptu_ri_alert_function sample_env bare_event tt)).
Proof.
  destruct (handler_always_returns_success sample_env bare_event eq_refl) as [Hv Hlog].
  split; [exact Hv | apply Hlog; reflexivity].
Defined.

(** ** Parsing the subject *)

(** C7 as the specification words it fails: a subject that passes the
    filter with fewer than 9 segments makes the parsing raise an index
    error before the deployment name is looked at. *)
Lemma short_subject_raises_index_error :
  ~ (forall event,
       is_deployment_event (subject event) (operation_name_of event) = Return true ->
       (List.length (PyStr.split "/" (subject event)) < 11)%nat ->
       exists a b c,
         value (parse_subject (S:=unit) (subject event) tt) = Return (a, b, c, "unknown")).
Proof.
  intros H.
  destruct (H bare_event eq_refl) as (a & b & c & E).
  - vm_compute. lia.
  - vm_compute in E. discriminate E.
Qed.

(** C7, amended. For every subject with fewer than 11 segments: with at
    least 9 segments the parsing yields the segments 2, 4 and 8 and the
    deployment name 'unknown'; with fewer than 9 it raises an index
    error. *)
Theorem short_subject_parsing {S} subject (s : S) :
  let parts := PyStr.split "/" subject in
  (List.length parts < 11)%nat ->
  value (parse_subject subject s)
  = if (9 <=? List.length parts)%nat
    then Return (nth 2 parts "", nth 4 parts "", nth 8 parts "", "unknown")
    else Raise IndexError.
Proof.
  cbv zeta. unfold parse_subject.
  generalize (PyStr.split "/" subject). intros parts Hlen.
  do 11 (destruct parts as [|? parts]; [reflexivity|]).
  simpl in Hlen. lia.
Qed.

(** The subject of [account_event] passes the filter with 9 segments. *)
Lemma short_subject_example :
  is_deployment_event (subject account_event) (operation_name_of account_event)
  = Return true /\
  value (parse_subject (S:=unit) (subject account_event) tt)
  = Return ("sub1", "rg1", "acct1", "unknown").
Proof.
  split; [reflexivity|].
  apply (short_subject_parsing (S:=unit) (subject account_event) tt).
  vm_compute. lia.
Defined.

(** ** The catch-all boundary of the checker *)

(** C10. The checker returns normally for all inputs and all behaviours of
    its collaborators: whatever exception the statements inside its [try]
    raise is logged as an error and stops there. *)
Theorem check_ptu_capacity_never_raises env sub rg acc name s :
  let r := check_ptu_capacity env sub rg acc name s in
  value r = Return tt /\
  forall e, value (capacity_steps env sub rg acc name s) = Raise e ->
            In (ERROR, ErrorChecking e) (emitted r).
Proof.
  cbv zeta. rewrite check_ptu_capacity_run. cbv zeta.
  destruct (value (capacity_steps env sub rg acc name s)) as [u|e0]; cbn [value emitted].
  - split; [reflexivity | discriminate].
  - split; [reflexivity|]. intros e He. injection He as <-.
    apply in_or_app. right. apply in_or_app. right. simpl. tauto.
Qed.

(** Without a credential the checker logs the error and returns. *)
Lemma check_ptu_capacity_example_no_credential :
  In (ERROR, ErrorChecking (SdkError "no credential"))
     (emitted (check_ptu_capacity locked_env "sub1" "rg1" "acct1" "gpt4" fresh)).
Proof.
  apply (proj2 (check_ptu_capacity_never_raises locked_env "sub1" "rg1" "acct1" "gpt4" fresh)).
  reflexivity.
Defined.

(** ** Non-negative totals *)

(** C9. When every capacity and every quantity the collaborators hand out
    is missing or not negative, the deployed total, the reserved total and
    the capacity of the new deployment are not negative after any
    assignment of a run of the checker, nor at its end; a missing field
    counts as 0. *)
Theorem totals_never_negative env sub rg acc name :
  fields_nonneg env ->
  let s := frame (check_ptu_capacity env sub rg acc name fresh) in
  Forall nonneg (trail s) /\ nonneg (vars s) /\ or_zero None = 0.
Proof.
  intros He. cbv zeta.
  destruct (check_ptu_capacity_keeps_nonneg env sub rg acc name He fresh fresh_nonneg)
    as [Hv Ht].
  repeat split; try assumption; apply Hv.
Qed.

Lemma sample_env_fields_nonneg : fields_nonneg sample_env.
Proof.
  split.
  - intros s g a p H. injection H as <-.
    repeat (apply Forall_cons || apply Forall_nil); cbv; try exact I; discriminate.
  - intros o p H. injection H as <-.
    repeat (apply Forall_cons || apply Forall_nil); cbv; try exact I; discriminate.
Defined.

(** On the sample account no total is ever negative. *)
Lemma totals_never_negative_example :
  Forall nonneg
    (trail (frame (check_ptu_capacity sample_env "sub1" "rg1" "acct1" "gpt4" fresh))).
Proof.
  exact (proj1 (totals_never_negative sample_env "sub1" "rg1" "acct1" "gpt4"
                  sample_env_fields_nonneg)).
Defined.

(** ** The capacity of the new deployment *)

Lemma assign_keeps_trail v f : keeps (fun s => In v (trail s)) (assign f).
Proof. intros s Hs. right. exact Hs. Qed.

Lemma deployment_body_keeps_trail v name dep :
  keeps (fun s => In v (trail s)) (deployment_body name dep).
Proof.
  unfold deployment_body. destruct (dep_sku dep) as [sku|]; [|apply keeps_ret].
  apply keeps_when.
  apply keeps_bind; [apply keeps_read | intros total].
  apply keeps_bind; [apply assign_keeps_trail | intros _].
  apply keeps_bind; [apply keeps_read | intros details].
  apply keeps_bind; [apply assign_keeps_trail | intros _].
  apply keeps_when.
  apply keeps_bind; [apply assign_keeps_trail | intros _; apply keeps_logging].
Qed.

(** A provisioned deployment with the target name leaves its capacity in
    the variable. *)
Lemma deployment_body_records name dep s :
  provisioned_sku dep = true ->
  name_is (dep_name dep) name = true ->
  exists v, In v (trail (frame (deployment_body name dep s)))
            /\ new_deployment_ptus v = capacity_of dep.
Proof.
  unfold provisioned_sku, capacity_of, deployment_body.
  destruct (dep_sku dep) as [sku|]; [|discriminate].
  rewrite sku_test. intros Hp Hn. rewrite Hp, Hn. run_body.
  eexists. split; [left; reflexivity|]. simpl. apply or_zero_value.
Qed.

Lemma deployments_loop_records name l s dep :
  In dep l ->
  provisioned_sku dep = true ->
  name_is (dep_name dep) name = true ->
  exists v, In v (trail (frame (for_each l (deployment_body name) s)))
            /\ new_deployment_ptus v = capacity_of dep.
Proof.
  intros Hin Hp Hn. revert s. induction l as [|d l IH]; intros s; [destruct Hin|].
  cbn [for_each].
  rewrite (bind_run_return _ _ _ tt (deployment_body_returns name d s)).
  cbn [frame].
  destruct Hin as [->|Hin].
  - destruct (deployment_body_records name dep s Hp Hn) as (v & Hv & Hc).
    exists v. split; [|exact Hc].
    apply (keeps_for_each (fun s' => In v (trail s')) l (deployment_body name)
             (fun x _ => deployment_body_keeps_trail v name x) _ Hv).
  - apply IH, Hin.
Qed.

(** Step 1 ends on the frame its loop ends on. *)
Lemma scan_deployments_frame env sub rg acc name l s :
  CognitiveServicesManagementClient env sub = Return tt ->
  deployments_list env sub rg acc = Return {| yields := l; breaks := None |} ->
  frame (scan_deployments env sub rg acc name s)
  = let v1 := set_total_deployed 0 (vars s) in
    let v2 := set_new_deployment 0 v1 in
    let v3 := set_deployment_details [] v2 in
    frame (for_each l (deployment_body name)
             {| vars := v3; trail := v3 :: v2 :: v1 :: trail s |}).
Proof.
  intros Hc Hl. unfold scan_deployments, for_in.
  unfold bind, lift, logging, assign, read, ret, raise. rewrite Hc, Hl. simpl.
  set (s0 := {| vars := _; trail := _ |}).
  pose proof (deployments_loop_returns name l s0) as Hv.
  destruct (for_each l (deployment_body name) s0) as [v f em].
  simpl in Hv. subst v. simpl.
  destruct (log_breakdown_run DeploymentBreakdown (deployment_details (vars f)) f)
    as [Hbv Hbf].
  destruct (log_breakdown DeploymentBreakdown (deployment_details (vars f)) f)
    as [v' f' em'].
  simpl in Hbv, Hbf. subst v' f'. reflexivity.
Qed.

(** C8 as the specification words it fails: a deployment that has the
    target name and a sku that is not provisioned never has its capacity
    put in the variable. *)
Lemma standard_sku_capacity_not_recorded :
  ~ (forall env sub rg acc name l s dep,
       CognitiveServicesManagementClient env sub = Return tt ->
       deployments_list env sub rg acc = Return {| yields := l; breaks := None |} ->
       In dep l ->
       name_is (dep_name dep) name = true ->
       exists v, In v (trail (frame (scan_deployments env sub rg acc name s)))
                 /\ new_deployment_ptus v = capacity_of dep).
Proof.
  intros H.
  destruct (H standard_env "sub1" "rg1" "acct1" "gpt4"
              [deployment "gpt4" "Standard" (Some 10)] fresh
              (deployment "gpt4" "Standard" (Some 10))
              eq_refl eq_refl (or_introl eq_refl) eq_refl) as (v & Hin & Hv).
  vm_compute in Hin.
  repeat (destruct Hin as [Hin|Hin]; [subst v; vm_compute in Hv; discriminate Hv|]).
  exact Hin.
Qed.

(** C8, amended. For every deployment with a provisioned sku whose name
    equals the target name, the checker puts that deployment's capacity (a
    missing one as 0) in the new-deployment variable, a later such
    deployment replacing an earlier one, so that step 1 ends with the
    capacity of the last of them, or 0 when there is none; and in the
    'exceeds reservations' case the line about the new deployment is
    logged exactly when that variable is positive. *)
Theorem new_deployment_capacity_recorded env sub rg acc name l s :
  CognitiveServicesManagementClient env sub = Return tt ->
  deployments_list env sub rg acc = Return {| yields := l; breaks := None |} ->
  let s1 := frame (scan_deployments env sub rg acc name s) in
  (forall dep, In dep l -> provisioned_sku dep = true ->
               name_is (dep_name dep) name = true ->
               exists v, In v (trail s1) /\ new_deployment_ptus v = capacity_of dep) /\
  new_deployment_ptus (vars s1) = last_named name l /\
  (forall s2, total_reserved_ptus (vars s2) <> 0 ->
              total_reserved_ptus (vars s2) < total_deployed_ptus (vars s2) ->
              (In (ERROR, NewDeploymentBilled name (new_deployment_ptus (vars s2)))
                  (emitted (compare_and_report name s2))
               <-> 0 < new_deployment_ptus (vars s2))).
Proof.
  intros Hc Hl. cbv zeta. split; [|split].
  - intros dep Hin Hp Hn. rewrite (scan_deployments_frame _ _ _ _ _ _ _ Hc Hl). cbv zeta.
    apply deployments_loop_records; assumption.
  - exact (proj1 (proj2 (proj2 (scan_deployments_run env sub rg acc name _ s Hc Hl)))).
  - intros s2 H0 Hlt.
    unfold compare_and_report, bind, read, logging, when. simpl.
    destruct (total_reserved_ptus (vars s2) =? 0) eqn:E0;
      [apply Z.eqb_eq in E0; contradiction|].
    destruct (total_deployed_ptus (vars s2) <=? total_reserved_ptus (vars s2)) eqn:E1;
      [apply Z.leb_le in E1; lia|].
    destruct (0 <? new_deployment_ptus (vars s2)) eqn:E2; simpl.
    + apply Z.ltb_lt in E2. split; [intros _; exact E2 | tauto].
    + apply Z.ltb_ge in E2. split; [|lia].
      intros Hin.
      repeat (destruct Hin as [Hin|Hin]; [discriminate Hin|]). destruct Hin.
Qed.

(** On the sample account the target 'gpt4' names a deployment of 20
    provisioned units (and one whose sku does not begin with the prefix):
    20 is what step 1 leaves in the variable. *)
Lemma new_deployment_capacity_example :
  new_deployment_ptus
    (vars (frame (scan_deployments sample_env "sub1" "rg1" "acct1" "gpt4" fresh)))
  = 20.
Proof.
  exact (proj1 (proj2 (new_deployment_capacity_recorded
                         sample_env "sub1" "rg1" "acct1" "gpt4" sample_deployments fresh
                         eq_refl eq_refl))).
Defined.

(** * Further properties *)

(** ** The handler *)

Lemma dict_get_missing d key default :
  (forall v, ~ In (key, v) d) -> dict_get d key default = default.
Proof.
  induction d as [|[k v] d IH]; intros H; simpl; [reflexivity|].
  destruct (String.eqb k key) eqn:E.
  - apply String.eqb_eq in E. subst k. destruct (H v). left. reflexivity.
  - apply IH. intros v' Hin. apply (H v'). right. exact Hin.
Qed.

(** What [parse_subject] does, by the number of segments. *)
Lemma parse_subject_eq {S} subject (s : S) :
  parse_subject subject s =
  let parts := PyStr.split "/" subject in
  if (List.length parts <? 9)%nat
  then Run (Raise IndexError) s []
  else Run (Return (nth 2 parts "", nth 4 parts "", nth 8 parts "",
                    if (10 <? List.length parts)%nat then nth 10 parts "" else "unknown"))
           s [].
Proof.
  cbv zeta. unfold parse_subject.
  generalize (PyStr.split "/" subject). intros parts.
  do 11 (destruct parts as [|? parts]; [reflexivity|]).
  reflexivity.
Qed.

Lemma split_length c s : List.length (PyStr.split c s) = S (occurrences c s).
Proof.
  induction s as [|a r IH]; simpl; [reflexivity|].
  destruct (Ascii.eqb a c); simpl.
  - rewrite IH. reflexivity.
  - destruct (PyStr.split c r) as [|hd tl]; simpl in *; [discriminate IH | exact IH].
Qed.

(** X1. Whatever the event and whatever follows (a skip, a check, or an
    exception of the filter), the log of the handler begins with the nine
    lines that identify the event. *)
Theorem handler_logs_event_first env event :
  exists rest,
    emitted (ptu_ri_alert_function env event tt) = (opening_lines event ++ rest)%list.
Proof.
  rewrite handler_run.
  destruct (is_deployment_event (subject event) (operation_name_of event)) as [[|]|e];
    cbn [emitted]; eexists; reflexivity.
Qed.

(** X2. The filter runs outside the [try]: when the subject contains the
    resource-type marker and the operation name of the payload is null, a
    boolean or a number, the membership test of line 37 raises a type error
    that leaves the handler; no success dictionary is returned and nothing
    is logged after the opening lines. *)
Theorem handler_raises_on_scalar_operation_name env event :
  PyStr.contains "Microsoft.CognitiveServices/accounts" (subject event) = true ->
  (operation_name_of event = JNull \/
   (exists b, operation_name_of event = JBool b) \/
   (exists n, operation_name_of event = JNum n)) ->
  ptu_ri_alert_function env event tt = Run (Raise TypeError) tt (opening_lines event).
Proof.
  intros Hs Ho. rewrite handler_run. unfold is_deployment_event. rewrite Hs.
  destruct Ho as [-> | [[b ->] | [n ->]]]; reflexivity.
Qed.

Lemma handler_raises_example :
  value (ptu_ri_alert_function sample_env null_operation_event tt) = Raise TypeError.
Proof.
  exact (f_equal value
           (handler_raises_on_scalar_operation_name sample_env null_operation_event
              eq_refl (or_introl eq_refl))).
Defined.

(** X3. A payload without the key 'operationName' is read as the operation
    'N/A': the event is skipped whatever its subject, and the handler
    returns the success dictionary. *)
Theorem missing_operation_name_is_skipped env event :
  (forall v, ~ In ("operationName", v) (get_json event)) ->
  ptu_ri_alert_function env event tt
  = Run (Return (success event)) tt
        (opening_lines event ++ [(INFO, NonDeploymentSkip)] ++ closing_lines).
Proof.
  intros H. rewrite handler_run. unfold is_deployment_event, operation_name_of.
  rewrite (dict_get_missing _ _ _ H).
  destruct (PyStr.contains _ (subject event)); reflexivity.
Qed.

Lemma missing_operation_name_example :
  value (ptu_ri_alert_function sample_env silent_event tt) = Return (success silent_event).
Proof.
  refine (f_equal value (missing_operation_name_is_skipped sample_env silent_event _)).
  intros v [H|[]]. discriminate H.
Defined.

(** X4. A subject with at least 11 segments is parsed into its segments 2,
    4, 8 and 10, without logging anything and without touching the
    variables of the caller. *)
Theorem full_subject_parsing {S} subject (s : S) :
  let parts := PyStr.split "/" subject in
  (11 <= List.length parts)%nat ->
  parse_subject subject s
  = Run (Return (nth 2 parts "", nth 4 parts "", nth 8 parts "", nth 10 parts "")) s [].
Proof.
  cbv zeta. intros H. rewrite parse_subject_eq. cbv zeta.
  destruct (List.length (PyStr.split "/" subject) <? 9)%nat eqn:E1;
    [apply Nat.ltb_lt in E1; lia|].
  destruct (10 <? List.length (PyStr.split "/" subject))%nat eqn:E2;
    [reflexivity | apply Nat.ltb_ge in E2; lia].
Qed.

Lemma full_subject_example :
  value (parse_subject (S:=unit) (subject deployment_event) tt)
  = Return ("sub1", "rg1", "acct1", "gpt4").
Proof.
  refine (f_equal value (full_subject_parsing (S:=unit) (subject deployment_event) tt _)).
  vm_compute. lia.
Defined.

(** X5. The parsing raises an index error exactly when the subject has
    fewer than 8 slashes; with 8 or more it returns. *)
Theorem parse_fails_below_eight_slashes {F} subject (s : F) :
  value (parse_subject subject s) = Raise IndexError
  <-> (occurrences "/" subject < 8)%nat.
Proof.
  rewrite parse_subject_eq. cbv zeta. rewrite split_length.
  destruct (S (occurrences "/" subject) <? 9)%nat eqn:E; cbn [value].
  - apply Nat.ltb_lt in E. split; [intros _; lia | reflexivity].
  - apply Nat.ltb_ge in E. split; [discriminate | lia].
Qed.

(** X6. For an event that passes the filter and whose subject can be
    parsed, the log of the handler is: the opening lines, the two lines
    about the detected deployment, the four lines with the parsed fields,
    the whole log of the checker called on those fields with variables of
    its own, and the closing lines; the success dictionary is returned. *)
Theorem handler_hands_parsed_fields_to_checker env event a b c d :
  is_deployment_event (subject event) (operation_name_of event) = Return true ->
  value (parse_subject (S:=unit) (subject event) tt) = Return (a, b, c, d) ->
  ptu_ri_alert_function env event tt
  = Run (Return (success event)) tt
        (opening_lines event
         ++ [(WARNING, DeploymentDetected); (WARNING, Resource (subject event))]
         ++ ([(INFO, Subscription a); (INFO, ResourceGroup b); (INFO, Account c);
              (INFO, DeploymentName d)]
             ++ emitted (check_ptu_capacity env a b c d fresh))
         ++ closing_lines).
Proof.
  intros Hf Hp. rewrite handler_run, Hf.
  unfold guarded_processing.
  rewrite try_except_run_return
    by (rewrite (process_deployment_event_run env event a b c d Hp); reflexivity).
  rewrite (process_deployment_event_run env event a b c d Hp). reflexivity.
Qed.

Lemma handler_hands_parsed_fields_example :
  In (INFO, DeploymentName "gpt4")
     (emitted (ptu_ri_alert_function sample_env deployment_event tt)).
Proof.
  rewrite (handler_hands_parsed_fields_to_checker sample_env deployment_event
             "sub1" "rg1" "acct1" "gpt4" eq_refl eq_refl).
  cbn [emitted]. apply in_or_app. right. apply in_or_app. right.
  apply in_or_app. left. apply in_or_app. left.
  right. right. right. left. reflexivity.
Defined.

(** X7. For an event that passes the filter with a subject of fewer than 9
    segments, the checker is not called: the handler logs the index error
    and its traceback between the lines about the detected deployment and
    the closing lines, and returns the success dictionary. *)
Theorem handler_logs_unparsable_subject env event :
  is_deployment_event (subject event) (operation_name_of event) = Return true ->
  (List.length (PyStr.split "/" (subject event)) < 9)%nat ->
  ptu_ri_alert_function env event tt
  = Run (Return (success event)) tt
        (opening_lines event
         ++ [(WARNING, DeploymentDetected); (WARNING, Resource (subject event))]
         ++ [(ERROR, ErrorProcessing IndexError); (ERROR, Traceback IndexError)]
         ++ closing_lines).
Proof.
  intros Hf Hlen. rewrite handler_run, Hf.
  assert (Hp : parse_subject (S:=unit) (subject event) tt = Run (Raise IndexError) tt []).
  { rewrite parse_subject_eq. cbv zeta.
    apply Nat.ltb_lt in Hlen. rewrite Hlen. reflexivity. }
  assert (Hr : process_deployment_event env event tt = Run (Raise IndexError) tt []).
  { unfold process_deployment_event.
    rewrite (bind_run_raise _ _ _ IndexError (f_equal value Hp)), Hp. reflexivity. }
  unfold guarded_processing.
  rewrite (try_except_run_raise _ _ _ IndexError (f_equal value Hr)), Hr.
  reflexivity.
Qed.

Lemma handler_logs_unparsable_subject_example :
  ~ In (INFO, CapacityCheck) (emitted (ptu_ri_alert_function sample_env bare_event tt)).
Proof.
  rewrite (handler_logs_unparsable_subject sample_env bare_event eq_refl).
  - cbn. intros H. repeat (destruct H as [H|H]; [discriminate H|]). exact H.
  - vm_compute. lia.
Defined.

(** ** The checker when step 1 cannot be done *)

(** X8. When no credential can be obtained, the checker does nothing
    else: after its heading it logs the error and its traceback, leaves
    its variables as they were and returns. *)
Theorem no_credential_no_enumeration env sub rg acc name s e :
  DefaultAzureCredential env = Raise e ->
  check_ptu_capacity env sub rg acc name s
  = Run (Return tt) s (banner3 ++ [(ERROR, ErrorChecking e); (ERROR, Traceback e)]).
Proof.
  intros H. rewrite check_ptu_capacity_run. cbv zeta.
  unfold capacity_steps. rewrite H.
  rewrite (bind_run_raise (lift (Raise e)) _ s e eq_refl). reflexivity.
Qed.

Lemma no_credential_example :
  emitted (check_ptu_capacity locked_env "sub1" "rg1" "acct1" "gpt4" fresh)
  = [(INFO, Banner); (INFO, CapacityCheck); (INFO, Banner);
     (ERROR, ErrorChecking (SdkError "no credential"));
     (ERROR, Traceback (SdkError "no credential"))].
Proof.
  exact (f_equal emitted
           (no_credential_no_enumeration locked_env "sub1" "rg1" "acct1" "gpt4" fresh
              (SdkError "no credential") eq_refl)).
Defined.

(** The loop over the deployments logs warnings only. *)
Lemma deployment_body_warns name dep s :
  Forall (fun en => fst en = WARNING) (emitted (deployment_body name dep s)).
Proof.
  unfold deployment_body. destruct (dep_sku dep) as [sku|]; [|constructor].
  destruct (_ && _)%bool; [|constructor].
  run_body. destruct (name_is (dep_name dep) name); repeat constructor.
Qed.

Lemma deployments_loop_warns name l s :
  Forall (fun en => fst en = WARNING) (emitted (for_each l (deployment_body name) s)).
Proof.
  revert s. induction l as [|d l IH]; intros s; cbn [for_each]; [constructor|].
  rewrite (bind_run_return _ _ _ tt (deployment_body_returns name d s)).
  cbn [emitted]. apply Forall_app. split; [apply deployment_body_warns | apply IH].
Qed.

(** X9. Unlike a failure of the reservation enumeration, a failure of the
    deployment enumeration (the list call raises, or the sequence raises
    after some deployments) ends the check: the error is logged, neither
    the reservations are queried nor a report is written, and the checker
    returns. *)
Theorem deployment_failure_ends_the_check env sub rg acc name s e :
  DefaultAzureCredential env = Return tt ->
  CognitiveServicesManagementClient env sub = Return tt ->
  (deployments_list env sub rg acc = Raise e \/
   exists p, deployments_list env sub rg acc = Return p /\ breaks p = Some e) ->
  let r := check_ptu_capacity env sub rg acc name s in
  value r = Return tt /\
  In (ERROR, ErrorChecking e) (emitted r) /\
  ~ In (INFO, CheckingReservations) (emitted r) /\
  ~ In (INFO, ReportHeader) (emitted r).
Proof.
  intros Hcred Hc Hl. cbv zeta.
  assert (Hs : exists f em,
             scan_deployments env sub rg acc name s
             = Run (Raise e) f ((INFO, ScanningDeployments acc) :: em)
             /\ Forall (fun en => fst en = WARNING) em).
  { unfold scan_deployments, for_in.
    unfold bind, lift, logging, assign, read, ret, raise. rewrite Hc.
    destruct Hl as [Hl | (p & Hl & Hb)]; rewrite Hl; simpl.
    - eexists. exists []. split; [reflexivity | constructor].
    - set (s0 := {| vars := _; trail := _ |}).
      pose proof (deployments_loop_returns name (yields p) s0) as Hv.
      pose proof (deployments_loop_warns name (yields p) s0) as Hw.
      destruct (for_each (yields p) (deployment_body name) s0) as [v f em].
      simpl in Hv, Hw. subst v. rewrite Hb. simpl.
      exists f, (em ++ [])%list. split; [reflexivity|].
      rewrite app_nil_r. exact Hw. }
  destruct Hs as (f & em & Hs & Hw).
  rewrite check_ptu_capacity_run. cbv zeta. unfold capacity_steps. rewrite Hcred.
  rewrite (bind_run_return (lift (Return tt)) _ s tt eq_refl).
  cbn [value frame emitted lift ret].
  rewrite (bind_run_raise _ _ _ e (f_equal value Hs)), Hs.
  cbn [value frame emitted]. split; [reflexivity|].
  assert (Hno : forall t, ~ In (INFO, t) em).
  { intros t Hin. rewrite Forall_forall in Hw. specialize (Hw _ Hin). discriminate Hw. }
  split; [|split].
  - apply in_or_app. right. simpl. right. apply in_or_app. right. simpl. tauto.
  - intros Hin. apply in_app_or in Hin. destruct Hin as [Hin|Hin].
    + simpl in Hin. repeat (destruct Hin as [Hin|Hin]; [discriminate Hin|]). exact Hin.
    + simpl in Hin. destruct Hin as [Hin|Hin]; [discriminate Hin|].
      apply in_app_or in Hin. destruct Hin as [Hin|Hin]; [exact (Hno _ Hin)|].
      simpl in Hin. repeat (destruct Hin as [Hin|Hin]; [discriminate Hin|]). exact Hin.
  - intros Hin. apply in_app_or in Hin. destruct Hin as [Hin|Hin].
    + simpl in Hin. repeat (destruct Hin as [Hin|Hin]; [discriminate Hin|]). exact Hin.
    + simpl in Hin. destruct Hin as [Hin|Hin]; [discriminate Hin|].
      apply in_app_or in Hin. destruct Hin as [Hin|Hin]; [exact (Hno _ Hin)|].
      simpl in Hin. repeat (destruct Hin as [Hin|Hin]; [discriminate Hin|]). exact Hin.
Qed.

Lemma deployment_failure_example :
  In (ERROR, ErrorChecking (SdkError "connection reset"))
     (emitted (check_ptu_capacity interrupted_env "sub1" "rg1" "acct1" "gpt4" fresh)).
Proof.
  refine (proj1 (proj2 (deployment_failure_ends_the_check
                          interrupted_env "sub1" "rg1" "acct1" "gpt4" fresh
                          (SdkError "connection reset") eq_refl eq_refl _))).
  right. eexists. split; reflexivity.
Defined.

(** ** The logs of steps 1 and 2 *)

Lemma log_lines_emitted {S} (details : list msg) (s : S) :
  emitted (for_each details (fun d => logging INFO d) s)
  = map (fun d => (INFO, d)) details.
Proof.
  revert s. induction details as [|d l IH]; intros s; cbn [for_each map]; [reflexivity|].
  rewrite (bind_run_return (logging INFO d) _ s tt eq_refl).
  cbn [emitted logging frame]. rewrite IH. reflexivity.
Qed.

Lemma log_breakdown_emitted {S} title (details : list msg) (s : S) :
  emitted (log_breakdown title details s) = breakdown_lines title details.
Proof.
  unfold log_breakdown, breakdown_lines. destruct details as [|d l]; [reflexivity|].
  cbn [List.length Nat.eqb negb when].
  rewrite (bind_run_return (logging INFO title) _ s tt eq_refl).
  cbn [emitted logging frame]. rewrite log_lines_emitted. reflexivity.
Qed.

Lemma deployment_body_details name dep s :
  deployment_details (vars (frame (deployment_body name dep s)))
  = (deployment_details (vars s)
     ++ (if provisioned_sku dep then [detail_of dep] else []))%list.
Proof.
  unfold deployment_body, provisioned_sku, detail_of, capacity_of.
  destruct (dep_sku dep) as [sku|]; [|simpl; symmetry; apply app_nil_r].
  rewrite sku_test, or_zero_value.
  destruct (sku_name sku) as [n|]; [|simpl; symmetry; apply app_nil_r].
  destruct (begins_with_ci n "provisioned"); [|simpl; symmetry; apply app_nil_r].
  run_body. destruct (name_is (dep_name dep) name); reflexivity.
Qed.

Lemma deployment_body_emitted name dep s :
  emitted (deployment_body name dep s)
  = if named_provisioned name dep
    then [(WARNING, NewDeployment name (capacity_of dep))]
    else [].
Proof.
  unfold deployment_body, named_provisioned, provisioned_sku, capacity_of.
  destruct (dep_sku dep) as [sku|]; [|reflexivity].
  rewrite sku_test, or_zero_value.
  destruct (sku_name sku) as [n|]; [|reflexivity].
  destruct (begins_with_ci n "provisioned"); [|reflexivity].
  run_body. destruct (name_is (dep_name dep) name); reflexivity.
Qed.

Lemma deployments_loop_log name l s :
  let r := for_each l (deployment_body name) s in
  deployment_details (vars (frame r))
  = (deployment_details (vars s) ++ map detail_of (filter provisioned_sku l))%list /\
  emitted r
  = map (fun d => (WARNING, NewDeployment name (capacity_of d)))
        (filter (named_provisioned name) l).
Proof.
  cbv zeta. revert s. induction l as [|d l IH]; intros s; cbn [for_each filter].
  - split; [symmetry; apply app_nil_r | reflexivity].
  - rewrite (bind_run_return _ _ _ tt (deployment_body_returns name d s)).
    cbn [frame emitted].
    destruct (IH (frame (deployment_body name d s))) as [Hd He].
    rewrite Hd, He, deployment_body_details, deployment_body_emitted.
    split.
    + destruct (provisioned_sku d); cbn [map];
        rewrite <- app_assoc; reflexivity.
    + destruct (named_provisioned name d); reflexivity.
Qed.

(** X10. When the deployments are listed without failure, the log of step
    1 is exactly: the line about the scan, one warning for each provisioned
    deployment with the target name, the total, and, unless no deployment
    is provisioned, the breakdown title followed by one line for each
    provisioned deployment in the order of the listing; these lines are
    what the details variable holds. *)
Theorem step_one_log env sub rg acc name l s :
  CognitiveServicesManagementClient env sub = Return tt ->
  deployments_list env sub rg acc = Return {| yields := l; breaks := None |} ->
  let r := scan_deployments env sub rg acc name s in
  deployment_details (vars (frame r)) = map detail_of (filter provisioned_sku l) /\
  emitted r
  = (INFO, ScanningDeployments acc)
    :: map (fun d => (WARNING, NewDeployment name (capacity_of d)))
           (filter (named_provisioned name) l)
    ++ (INFO, TotalDeployed (spec_total_deployed l))
    :: breakdown_lines DeploymentBreakdown (map detail_of (filter provisioned_sku l)).
Proof.
  intros Hc Hl. cbv zeta. unfold scan_deployments, for_in.
  unfold bind, lift, logging, assign, read, ret, raise. rewrite Hc, Hl. simpl.
  set (s0 := {| vars := _; trail := _ |}).
  pose proof (deployments_loop_returns name l s0) as Hv.
  pose proof (deployments_loop_total name l s0) as Ht.
  destruct (deployments_loop_log name l s0) as [Hd He].
  destruct (for_each l (deployment_body name) s0) as [v f em].
  simpl in Hv, Ht, Hd, He. subst v em. simpl.
  destruct (log_breakdown_run DeploymentBreakdown (deployment_details (vars f)) f)
    as [Hbv Hbf].
  pose proof (log_breakdown_emitted DeploymentBreakdown (deployment_details (vars f)) f)
    as Hbe.
  destruct (log_breakdown DeploymentBreakdown (deployment_details (vars f)) f)
    as [v' f' em'].
  simpl in Hbv, Hbf, Hbe. subst v' f' em'. simpl.
  rewrite Hd, Ht, app_nil_r. split; reflexivity.
Qed.

Lemma step_one_log_example :
  deployment_details
    (vars (frame (scan_deployments sample_env "sub1" "rg1" "acct1" "gpt4" fresh)))
  = [DeploymentDetail (Some "embeddings") 10 (Some "ProvisionedManaged");
     DeploymentDetail (Some "gpt4") 20 (Some "ProvisionedManaged");
     DeploymentDetail (Some "batch") 5 (Some "provisioned-managed")].
Proof.
  exact (proj1 (step_one_log sample_env "sub1" "rg1" "acct1" "gpt4" sample_deployments
                  fresh eq_refl eq_refl)).
Defined.

(** X11. Whatever the reservation clients do and yield, step 2 ends with a
    reserved total of 0 and an empty list of details, and its log is
    exactly: the line about the query, the two warnings if the enumeration
    raised, and the total 0.  No breakdown of reservations is ever logged:
    a reservation that reaches the loop body raises before anything is
    added. *)
Theorem step_two_log env s :
  let r := scan_reservations env s in
  total_reserved_ptus (vars (frame r)) = 0 /\
  reservation_details (vars (frame r)) = [] /\
  emitted r
  = (INFO, CheckingReservations)
    :: match enumeration_failure env with
       | Some e => [(WARNING, CouldNotQuery e); (WARNING, ReservationDelayNote)]
       | None => []
       end
    ++ [(INFO, TotalReserved 0)].
Proof.
  cbv zeta. rewrite scan_reservations_closed. cbv zeta.
  repeat split.
Qed.

(** ** Steps in a row *)

Lemma compare_and_report_unreserved name s :
  total_reserved_ptus (vars s) = 0 ->
  emitted (compare_and_report name s)
  = [(INFO, Banner); (INFO, ReportHeader); (INFO, Banner);
     (WARNING, NoReservationsFound);
     (WARNING, AllBilledHourly (total_deployed_ptus (vars s)));
     (WARNING, ConsiderPurchasing); (INFO, Banner)].
Proof.
  intros H. unfold compare_and_report, bind, read, logging, when. simpl.
  rewrite H. reflexivity.
Qed.

(** X12. When the enumeration of the reservations raises, the report that
    follows is the one for an account without reservations: after the
    warning about the failed query, 'no reservations found' is logged and
    the whole deployed total is announced as billed hourly. *)
Theorem failed_query_reads_as_no_reservations env name s e :
  enumeration_failure env = Some e ->
  let r := (scan_reservations env ;; compare_and_report name) s in
  value r = Return tt /\
  In (WARNING, CouldNotQuery e) (emitted r) /\
  In (WARNING, NoReservationsFound) (emitted r) /\
  In (WARNING, AllBilledHourly (total_deployed_ptus (vars s))) (emitted r).
Proof.
  intros He. cbv zeta.
  destruct (scan_reservations_run env s) as (Hv & Ht & _ & Hw).
  rewrite He in Hw. destruct Hw as [Hw _].
  destruct (scan_reservations_keeps_deployed env _ _ s (conj eq_refl eq_refl))
    as [Hd _].
  rewrite (bind_run_return _ _ _ tt Hv). cbn [value emitted].
  rewrite returns_compare_and_report, (compare_and_report_unreserved _ _ Ht), Hd.
  split; [reflexivity|]. split; [|split].
  - apply in_or_app. left. exact Hw.
  - apply in_or_app. right. simpl. tauto.
  - apply in_or_app. right. simpl. tauto.
Qed.

Lemma failed_query_example :
  In (WARNING, NoReservationsFound)
     (emitted ((scan_reservations unreserved_env ;; compare_and_report "gpt4")
                 (frame_with 35 0 20))).
Proof.
  exact (proj1 (proj2 (proj2
           (failed_query_reads_as_no_reservations unreserved_env "gpt4"
              (frame_with 35 0 20) (SdkError "forbidden") eq_refl)))).
Defined.

Lemma capacity_of_nonneg dep : deployment_fields_nonneg dep -> 0 <= capacity_of dep.
Proof.
  unfold deployment_fields_nonneg, capacity_of.
  destruct (dep_sku dep) as [sku|]; [|lia].
  destruct (sku_capacity sku); simpl; lia.
Qed.

Lemma last_named_bounds name l :
  Forall deployment_fields_nonneg l ->
  0 <= last_named name l <= spec_total_deployed l.
Proof.
  unfold last_named, spec_total_deployed.
  induction l as [|d l IH]; intros H; [simpl; lia|].
  inversion H as [|? ? Hd Hl]; subst. specialize (IH Hl).
  apply capacity_of_nonneg in Hd. cbn [filter].
  destruct (provisioned_sku d); cbn [andb map sum_of fold_right].
  - destruct (name_is (dep_name d) name); cbn [map].
    + destruct (map capacity_of
                  (filter (fun dep => provisioned_sku dep && name_is (dep_name dep) name)%bool l))
        as [|c cs].
      * simpl in *. unfold sum_of in IH. lia.
      * change (last (capacity_of d :: c :: cs) 0) with (last (c :: cs) 0).
        unfold sum_of in IH. lia.
    + unfold sum_of in IH. lia.
  - exact IH.
Qed.

(** X13. When the capacities of the listed deployments are missing or not
    negative, the capacity recorded for the new deployment at the end of
    step 1 lies between 0 and the deployed total: the new deployment is
    counted in the total it is compared with. *)
Theorem new_deployment_within_total env sub rg acc name l s :
  CognitiveServicesManagementClient env sub = Return tt ->
  deployments_list env sub rg acc = Return {| yields := l; breaks := None |} ->
  Forall deployment_fields_nonneg l ->
  let v := vars (frame (scan_deployments env sub rg acc name s)) in
  0 <= new_deployment_ptus v <= total_deployed_ptus v.
Proof.
  intros Hc Hl Hnn. cbv zeta.
  destruct (scan_deployments_run env sub rg acc name _ s Hc Hl) as (_ & Ht & Hn & _).
  simpl in Ht, Hn. rewrite Ht, Hn. apply last_named_bounds, Hnn.
Qed.

Lemma sample_deployments_nonneg : Forall deployment_fields_nonneg sample_deployments.
Proof.
  repeat (apply Forall_cons || apply Forall_nil); cbv; try exact I; discriminate.
Defined.

Lemma new_deployment_within_total_example :
  0 <= new_deployment_ptus
         (vars (frame (scan_deployments sample_env "sub1" "rg1" "acct1" "gpt4" fresh)))
    <= total_deployed_ptus
         (vars (frame (scan_deployments sample_env "sub1" "rg1" "acct1" "gpt4" fresh))).
Proof.
  exact (new_deployment_within_total sample_env "sub1" "rg1" "acct1" "gpt4"
           sample_deployments fresh eq_refl eq_refl sample_deployments_nonneg).
Defined.

(** X14. With a credential at hand and the deployments listed without
    failure, a run of the checker is its heading followed by the three
    steps in a row, each starting on the variables the one before left:
    whatever the reservation clients do, the report is written, and the
    checker ends on the variables step 2 left. *)
Theorem successful_run_is_three_steps env sub rg acc name l s :
  DefaultAzureCredential env = Return tt ->
  CognitiveServicesManagementClient env sub = Return tt ->
  deployments_list env sub rg acc = Return {| yields := l; breaks := None |} ->
  let r1 := scan_deployments env sub rg acc name s in
  let r2 := scan_reservations env (frame r1) in
  let r3 := compare_and_report name (frame r2) in
  check_ptu_capacity env sub rg acc name s
  = Run (Return tt) (frame r2) (banner3 ++ emitted r1 ++ emitted r2 ++ emitted r3).
Proof.
  intros Hcred Hc Hl. cbv zeta.
  destruct (scan_deployments_run env sub rg acc name _ s Hc Hl) as (Hv & _).
  simpl in Hv.
  rewrite check_ptu_capacity_run, (capacity_steps_eq _ _ _ _ _ _ Hcred Hv).
  reflexivity.
Qed.

Lemma successful_run_example :
  frame (check_ptu_capacity sample_env "sub1" "rg1" "acct1" "gpt4" fresh)
  = frame (scan_reservations sample_env
             (frame (scan_deployments sample_env "sub1" "rg1" "acct1" "gpt4" fresh))).
Proof.
  exact (f_equal frame
           (successful_run_is_three_steps sample_env "sub1" "rg1" "acct1" "gpt4"
              sample_deployments fresh eq_refl eq_refl eq_refl)).
Defined.

(** ** No variable is read before it is assigned *)

Lemma scan_deployments_outcome env sub rg acc name s :
  let r := scan_deployments env sub rg acc name s in
  (value r, emitted r) = step_one_outcome env sub rg acc name /\
  (value r = Return tt ->
   forall p, deployments_list env sub rg acc = Return p ->
             total_deployed_ptus (vars (frame r)) = spec_total_deployed (yields p) /\
             new_deployment_ptus (vars (frame r)) = last_named name (yields p)).
Proof.
  cbv zeta. unfold scan_deployments, for_in, step_one_outcome.
  unfold bind, lift, logging, assign, read, ret, raise.
  destruct (CognitiveServicesManagementClient env sub) as [[]|e]; simpl;
    [|split; [reflexivity | discriminate]].
  destruct (deployments_list env sub rg acc) as [p|e]; simpl;
    [|split; [reflexivity | discriminate]].
  set (s0 := {| vars := _; trail := _ |}).
  pose proof (deployments_loop_returns name (yields p) s0) as Hv.
  pose proof (deployments_loop_total name (yields p) s0) as Ht.
  pose proof (deployments_loop_new name (yields p) s0) as Hn.
  destruct (deployments_loop_log name (yields p) s0) as [Hd He].
  destruct (for_each (yields p) (deployment_body name) s0) as [v f em].
  simpl in Hv, Ht, Hn, Hd, He. subst v em. fold (last_named name (yields p)) in Hn.
  destruct (breaks p) as [e|]; simpl.
  - rewrite app_nil_r. split; [reflexivity | discriminate].
  - destruct (log_breakdown_run DeploymentBreakdown (deployment_details (vars f)) f)
      as [Hbv Hbf].
    pose proof (log_breakdown_emitted DeploymentBreakdown (deployment_details (vars f)) f)
      as Hbe.
    destruct (log_breakdown DeploymentBreakdown (deployment_details (vars f)) f)
      as [v' f' em'].
    simpl in Hbv, Hbf, Hbe. subst v' f' em'. simpl.
    rewrite Hd, Ht, app_nil_r. split; [reflexivity|].
    intros _ q Hq. injection Hq as <-. split; [reflexivity | exact Hn].
Qed.

Lemma scan_reservations_emitted env s :
  emitted (scan_reservations env s)
  = (INFO, CheckingReservations)
    :: match enumeration_failure env with
       | Some e => [(WARNING, CouldNotQuery e); (WARNING, ReservationDelayNote)]
       | None => []
       end
    ++ [(INFO, TotalReserved 0)].
Proof. rewrite scan_reservations_closed. reflexivity. Qed.

Lemma compare_and_report_reads name s s' :
  total_deployed_ptus (vars s) = total_deployed_ptus (vars s') ->
  total_reserved_ptus (vars s) = total_reserved_ptus (vars s') ->
  new_deployment_ptus (vars s) = new_deployment_ptus (vars s') ->
  emitted (compare_and_report name s) = emitted (compare_and_report name s').
Proof.
  intros Hd Hr Hn. unfold compare_and_report, bind, read, logging, when. simpl.
  rewrite Hd, Hr, Hn.
  destruct (total_reserved_ptus (vars s') =? 0); [reflexivity|].
  destruct (total_deployed_ptus (vars s') <=? total_reserved_ptus (vars s'));
    [reflexivity|].
  destruct (0 <? new_deployment_ptus (vars s')); reflexivity.
Qed.

Lemma capacity_steps_reads env sub rg acc name s s' :
  value (capacity_steps env sub rg acc name s)
  = value (capacity_steps env sub rg acc name s') /\
  emitted (capacity_steps env sub rg acc name s)
  = emitted (capacity_steps env sub rg acc name s').
Proof.
  unfold capacity_steps.
  destruct (DefaultAzureCredential env) as [[]|e].
  2: { rewrite (bind_run_raise (lift (Raise e)) _ s e eq_refl),
               (bind_run_raise (lift (Raise e)) _ s' e eq_refl).
       split; reflexivity. }
  rewrite (bind_run_return (lift (Return tt)) _ s tt eq_refl),
          (bind_run_return (lift (Return tt)) _ s' tt eq_refl).
  cbn [value frame emitted lift ret].
  destruct (scan_deployments_outcome env sub rg acc name s) as [Ho Hvars].
  destruct (scan_deployments_outcome env sub rg acc name s') as [Ho' Hvars'].
  cbv zeta in *.
  assert (Hv : value (scan_deployments env sub rg acc name s)
               = value (scan_deployments env sub rg acc name s'))
    by (apply (f_equal fst) in Ho; apply (f_equal fst) in Ho'; simpl in *; congruence).
  assert (He : emitted (scan_deployments env sub rg acc name s)
               = emitted (scan_deployments env sub rg acc name s'))
    by (apply (f_equal snd) in Ho; apply (f_equal snd) in Ho'; simpl in *; congruence).
  destruct (value (scan_deployments env sub rg acc name s)) as [[]|e] eqn:E.
  - symmetry in Hv.
    rewrite (bind_run_return _ _ s tt E), (bind_run_return _ _ s' tt Hv).
    cbn [value frame emitted].
    set (f := frame (scan_deployments env sub rg acc name s)) in *.
    set (f' := frame (scan_deployments env sub rg acc name s')) in *.
    rewrite (bind_run_return _ _ f tt (proj1 (scan_reservations_run env f))),
            (bind_run_return _ _ f' tt (proj1 (scan_reservations_run env f'))).
    cbn [value frame emitted].
    rewrite !returns_compare_and_report, !scan_reservations_emitted, He.
    split; [reflexivity|]. do 3 f_equal.
    assert (Hsame : total_deployed_ptus (vars f) = total_deployed_ptus (vars f') /\
                    new_deployment_ptus (vars f) = new_deployment_ptus (vars f')).
    { unfold step_one_outcome in Ho.
      destruct (CognitiveServicesManagementClient env sub) as [[]|e0];
        [|simpl in Ho; congruence].
      destruct (deployments_list env sub rg acc) as [p|e0] eqn:El;
        [|simpl in Ho; congruence].
      destruct (Hvars eq_refl p eq_refl) as [H1 H2].
      destruct (Hvars' Hv p eq_refl) as [H1' H2'].
      split; congruence. }
    destruct Hsame as [Hd Hn].
    apply compare_and_report_reads.
    + rewrite (proj1 (scan_reservations_keeps_deployed env _ _ f (conj eq_refl eq_refl))),
              (proj1 (scan_reservations_keeps_deployed env _ _ f' (conj eq_refl eq_refl))).
      exact Hd.
    + rewrite (proj1 (proj2 (scan_reservations_run env f))),
              (proj1 (proj2 (scan_reservations_run env f'))).
      reflexivity.
    + rewrite (proj2 (scan_reservations_keeps_deployed env _ _ f (conj eq_refl eq_refl))),
              (proj2 (scan_reservations_keeps_deployed env _ _ f' (conj eq_refl eq_refl))).
      exact Hn.
  - symmetry in Hv.
    rewrite (bind_run_raise _ _ s e E), (bind_run_raise _ _ s' e Hv).
    cbn [value emitted]. split; [reflexivity | exact He].
Qed.

(** X15. The result and the log of the checker do not depend on what its
    variables held before the call: every variable is assigned (lines
    89-91 and 112-113) before it is read, so a run never sees a value left
    by an earlier invocation. *)
Theorem checker_reads_no_earlier_value env sub rg acc name s s' :
  value (check_ptu_capacity env sub rg acc name s)
  = value (check_ptu_capacity env sub rg acc name s') /\
  emitted (check_ptu_capacity env sub rg acc name s)
  = emitted (check_ptu_capacity env sub rg acc name s').
Proof.
  rewrite !check_ptu_capacity_run. cbv zeta.
  destruct (capacity_steps_reads env sub rg acc name s s') as [Hv He].
  rewrite <- Hv, <- He.
  destruct (value (capacity_steps env sub rg acc name s)); split; reflexivity.
Qed.
